(** * build_changelog: a debian/changelog derived from a git history

    A shallow embedding of [build_changelog.py] and the properties of it
    that its specification states.

    Conventions of the embedding.
    - Python [str] values are [string]s: sequences of 8-bit characters.
      [str.lower] acts on [A]-[Z]; a file's content is the text that
      Python's text-mode reader delivers for it.
    - An exception is a value of [exn]; code that can raise returns a
      [result].  Code that reads or mutates the package object, the file
      system or standard output lives in the monad [M], whose state
      survives an exception, as in Python.
    - [git], [datetime] and [email.utils] are external collaborators.  A
      repository is a record of the answers GitPython gives; the date
      formatting functions are the methods of the class [DateTime]. *)

From Stdlib Require Import ZArith String Ascii List Lia DecimalString.
From stdpp Require Import base strings list gmap.

Set Default Proof Using "Type".
Set Warnings "-register-all".
#[local] Arguments String.append !_ _ / : simpl nomatch.
Local Open Scope string_scope.
Local Open Scope list_scope.

(** ** Exceptions *)

Inductive exn : Type :=
| Exception (msg : string)
| NameError (name : string)
| IndexError
| ValueError
| KeyError (key : string)
| TypeError
| AttributeError
| FileNotFoundError (path : string)
| IsADirectoryError (path : string)
| GitCommandError.

Inductive result (A : Type) : Type :=
| Ok (a : A)
| Raise (e : exn).
Arguments Ok {A} a.
Arguments Raise {A} e.

(** [try: body  except: handler] with a bare [except]. *)
Definition try_except {A} (body : result A) (handler : exn -> result A) : result A :=
  match body with
  | Ok a => Ok a
  | Raise e => handler e
  end.

(** ** Python string operations *)

Module Str.

Definition nl : string := String "010"%char EmptyString.

Definition is_upper (c : ascii) : bool := (("A" <=? c) && (c <=? "Z"))%char.

Definition lower_char (c : ascii) : ascii :=
  if is_upper c then ascii_of_nat (nat_of_ascii c + 32) else c.

(** [s.lower()] *)
Fixpoint lower (s : string) : string :=
  match s with
  | EmptyString => EmptyString
  | String c s' => String (lower_char c) (lower s')
  end.

(** [c in s] for a single character *)
Fixpoint contains (c : ascii) (s : string) : bool :=
  match s with
  | EmptyString => false
  | String d s' => Ascii.eqb c d || contains c s'
  end.

(** [s.startswith(p)] *)
Definition startswith (p s : string) : bool := String.prefix p s.

(** The scan of [s.replace(old, new)] for a non-empty [old]: [skip] counts
    the characters of an occurrence already replaced that are still to be
    passed over. *)
Fixpoint replace_scan (old new : string) (skip : nat) (s : string) : string :=
  match s with
  | EmptyString => EmptyString
  | String c s' =>
      match skip with
      | S k => replace_scan old new k s'
      | O =>
          if String.prefix old s
          then new +:+ replace_scan old new (String.length old - 1) s'
          else String c (replace_scan old new 0 s')
      end
  end.

(** [s.replace("", new)] puts [new] before every character and at the end. *)
Fixpoint intersperse_all (new s : string) : string :=
  match s with
  | EmptyString => new
  | String c s' => new +:+ String c (intersperse_all new s')
  end.

(** [s.replace(old, new)]: every non-overlapping occurrence, left to right. *)
Definition replace (old new s : string) : string :=
  match old with
  | EmptyString => intersperse_all new s
  | String _ _ => replace_scan old new 0 s
  end.

(** [s.split(sep)] for a one-character separator; never the empty list. *)
Fixpoint split (sep : ascii) (s : string) : list string :=
  match s with
  | EmptyString => [EmptyString]
  | String c s' =>
      if Ascii.eqb c sep then EmptyString :: split sep s'
      else match split sep s' with
           | h :: t => String c h :: t
           | [] => [String c EmptyString]
           end
  end.

(** [s.split(sep, 1)] *)
Fixpoint split1 (sep : ascii) (s : string) : list string :=
  match s with
  | EmptyString => [EmptyString]
  | String c s' =>
      if Ascii.eqb c sep then [EmptyString; s']
      else match split1 sep s' with
           | h :: t => String c h :: t
           | [] => [String c EmptyString]
           end
  end.

(** [sep.join(l)] *)
Definition join (sep : string) (l : list string) : string := String.concat sep l.

(** [l[i]] for [i >= 0] *)
Definition index {A} (l : list A) (i : nat) : result A :=
  match l !! i with
  | Some x => Ok x
  | None => Raise IndexError
  end.

(** [l[-1]] *)
Definition index_last {A} (l : list A) : result A :=
  match last l with
  | Some x => Ok x
  | None => Raise IndexError
  end.

(** [s[0:n]] *)
Definition slice_to (n : nat) (s : string) : string := substring 0 n s.

(** [s[1:-1]] *)
Definition slice_1_m1 (s : string) : string :=
  substring 1 (String.length s - 2) s.

Definition is_space (c : ascii) : bool :=
  let n := nat_of_ascii c in
  ((9 <=? n) && (n <=? 13) || (28 <=? n) && (n <=? 32)
   || (n =? 133) || (n =? 160))%nat.

Fixpoint lstrip (s : string) : string :=
  match s with
  | EmptyString => EmptyString
  | String c s' => if is_space c then lstrip s' else s
  end.

Fixpoint rstrip (s : string) : string :=
  match s with
  | EmptyString => EmptyString
  | String c s' =>
      match rstrip s' with
      | EmptyString => if is_space c then EmptyString else String c EmptyString
      | r => String c r
      end
  end.

(** [s.strip()] *)
Definition strip (s : string) : string := rstrip (lstrip s).

(** The lines of a text, each with its line end, as [for line in f] and
    [f.readline()] deliver them. *)
Fixpoint lines (s : string) : list string :=
  match s with
  | EmptyString => []
  | String c s' =>
      if Ascii.eqb c "010" then String c EmptyString :: lines s'
      else match lines s' with
           | h :: t => String c h :: t
           | [] => [String c EmptyString]
           end
  end.

(** [old in s]: [old] occurs in [s] as a substring. *)
Definition occurs (old s : string) : Prop :=
  exists before after, s = before +:+ old +:+ after.

(** [s[-1]], when there is one *)
Fixpoint last_char (s : string) : option ascii :=
  match s with
  | EmptyString => None
  | String c s' =>
      match last_char s' with
      | Some d => Some d
      | None => Some c
      end
  end.

(** [f.readline()] on a freshly opened file *)
Definition readline (s : string) : string :=
  match lines s with
  | l :: _ => l
  | [] => EmptyString
  end.

End Str.

(** ** Regular expressions: [re.compile("[^...]+").sub] *)

Module Re.

(** The length of the match of [cls+] at the start of [s]: the quantifier is
    greedy, so every leading character of the class is taken. *)
Fixpoint match_len (cls : ascii -> bool) (s : string) : nat :=
  match s with
  | EmptyString => 0
  | String c s' => if cls c then S (match_len cls s') else 0
  end.

(** [pattern.sub(repl, s)] for the pattern [cls+]: at each position, left to
    right, a match is replaced by [repl] and the scan resumes after it
    ([skip] counts the matched characters still to pass over); where nothing
    matches the character is copied. *)
Fixpoint sub_scan (cls : ascii -> bool) (repl : string) (skip : nat) (s : string)
  : string :=
  match s with
  | EmptyString => EmptyString
  | String c s' =>
      match skip with
      | S k => sub_scan cls repl k s'
      | O =>
          match match_len cls s with
          | S n => repl +:+ sub_scan cls repl n s'
          | O => String c (sub_scan cls repl 0 s')
          end
      end
  end.

Definition sub (cls : ascii -> bool) (repl s : string) : string :=
  sub_scan cls repl 0 s.

End Re.

(** [[a-z0-9_]] *)
Definition allowed_char (c : ascii) : bool :=
  (("a" <=? c) && (c <=? "z") || ("0" <=? c) && (c <=? "9") || (c =? "_"))%char.

(** [not_allowed_regex = re.compile("[^a-z0-9_]+")]: its character class. *)
Definition not_allowed_regex (c : ascii) : bool := negb (allowed_char c).

Definition sanitize_tag_version (version : string) : string :=
  Str.replace "%" ":" (Str.replace "_" "~" version).

Definition slugify (s : string) : string :=
  Re.sub not_allowed_regex "." (Str.lower s).

(** *** The slug as the specification words it

    The maximal runs of a string: its consecutive characters grouped while
    they stay on the same side of the class. *)
Fixpoint maximal_runs (cls : ascii -> bool) (s : string) : list (bool * string) :=
  match s with
  | EmptyString => []
  | String c s' =>
      match maximal_runs cls s' with
      | (b, r) :: rest =>
          if Bool.eqb b (cls c) then (b, String c r) :: rest
          else (cls c, String c EmptyString) :: (b, r) :: rest
      | [] => [(cls c, String c EmptyString)]
      end
  end.

(** Every maximal run of characters of [cls] replaced by one [repl]. *)
Definition replace_runs (cls : ascii -> bool) (repl s : string) : string :=
  Str.join EmptyString
    (map (fun '(b, r) => if b : bool then repl else r) (maximal_runs cls s)).

(** What makes a list of pieces the maximal runs of a string: every piece is
    non-empty and lies on one side of the class, and neighbours lie on
    different sides. *)
Fixpoint all_chars (p : ascii -> bool) (s : string) : bool :=
  match s with
  | EmptyString => true
  | String c s' => p c && all_chars p s'
  end.

Definition starts_in_class (cls : ascii -> bool) (s : string) : bool :=
  match s with
  | EmptyString => false
  | String c _ => cls c
  end.

Definition is_run (cls : ascii -> bool) (run : bool * string) : Prop :=
  snd run <> EmptyString /\ all_chars (fun c => Bool.eqb (cls c) (fst run)) (snd run) = true.

Fixpoint alternating (runs : list (bool * string)) : Prop :=
  match runs with
  | (b1, _) :: rest =>
      match rest with
      | (b2, _) :: _ => b1 <> b2
      | [] => True
      end /\ alternating rest
  | [] => True
  end.

(** ** The repository, as GitPython presents it *)

Module Git.

Record Actor : Type := { name : string; email : string }.

Record Commit : Type := {
  hexsha : string;
  parents : list string;
  author : Actor;
  committed_date : Z;
  committer_tz_offset : Z;
  message : string
}.

Record TagReference : Type := {
  tag_name : string;
  (** [tag.commit.hexsha] *)
  tag_commit : string
}.

Record Repo : Type := {
  working_dir : string;
  tags : list TagReference;
  (** [repo.commit(rev=...)] *)
  commit : string -> result Commit;
  (** [repo.iter_commits(rev=...)], newest first *)
  iter_commits : string -> result (list Commit);
  (** [repo.git.describe(...)] with the given command-line arguments *)
  describe : list string -> result string;
  (** [repo.head.commit.hexsha] *)
  head_commit_hexsha : result string;
  (** [repo.active_branch.name] *)
  active_branch_name : result string
}.

End Git.

(** ** Dates

    [datetime.datetime.fromtimestamp(t).strftime(fmt)] and
    [email.utils.format_datetime(git.objects.util.from_timestamp(t, offset))]
    are library code. *)
Class DateTime : Type := {
  datetime : Type;
  fromtimestamp : Z -> datetime;
  strftime : datetime -> string -> string;
  from_timestamp : Z -> Z -> datetime;
  format_datetime : datetime -> string
}.

(** ** Files and standard output

    The file system is a map from paths to files and directories; paths are
    compared as text, and permissions and links are left out.  Standard
    output is the list of the lines printed. *)

Inductive node : Type :=
| File (content : string)
| Dir.

Record World : Type := {
  files : gmap string node;
  stdout : list string;
  cwd : string
}.

Module os_path.

(** [os.path.join(a, b)] *)
Definition join (a b : string) : string :=
  if Str.startswith "/" b then b
  else match a with
       | EmptyString => b
       | _ => if Ascii.eqb (default "/"%char (last (list_ascii_of_string a))) "/"
              then a +:+ b else a +:+ "/" +:+ b
       end.

(** [os.path.dirname(p)] for a path without a trailing slash *)
Definition dirname (p : string) : string :=
  match reverse (Str.split "/" p) with
  | _ :: ((_ :: _) as rhead) =>
      match Str.join "/" (reverse rhead) with
      | EmptyString => "/"
      | d => d
      end
  | _ => EmptyString
  end.

End os_path.

(** A relative path is resolved against the working directory of the
    process. *)
Definition resolve (w : World) (p : string) : string := os_path.join (cwd w) p.

(** [os.path.exists(p)] *)
Definition os_path_exists (w : World) (p : string) : bool :=
  bool_decide (is_Some (files w !! resolve w p)).

(** [open(p, "r")] followed by reading the text *)
Definition open_read (w : World) (p : string) : result string :=
  match files w !! resolve w p with
  | Some (File content) => Ok content
  | Some Dir => Raise (IsADirectoryError p)
  | None => Raise (FileNotFoundError p)
  end.

(** [open(p, "w")]: the file is created or truncated at once. *)
Definition open_write (w : World) (p : string) : World * result unit :=
  match files w !! resolve w p with
  | Some Dir => (w, Raise (IsADirectoryError p))
  | _ =>
      match files w !! os_path.dirname (resolve w p) with
      | Some Dir =>
          ({| files := <[resolve w p := File EmptyString]> (files w);
              stdout := stdout w; cwd := cwd w |}, Ok tt)
      | _ => (w, Raise (FileNotFoundError p))
      end
  end.

(** [f.write(text)] on the file opened at [p] *)
Definition file_write (w : World) (p : string) (text : string) : World :=
  match files w !! resolve w p with
  | Some (File content) =>
      {| files := <[resolve w p := File (content +:+ text)]> (files w);
         stdout := stdout w; cwd := cwd w |}
  | _ => w
  end.

(** [print(line)] *)
Definition print (w : World) (line : string) : World :=
  {| files := files w; stdout := stdout w ++ [line]; cwd := cwd w |}.

(** ** [none_on_exception] and the values it is called with *)

(** The [lambda x, y: ...] of [SlimPackage.version]. *)
Inductive function : Type :=
| describe_lambda.

Inductive pyval : Type :=
| VNone
| VStr (s : string)
| VRepo (r : Git.Repo)
| VFunction (f : function)
| VTuple (items : list pyval)
| VDict (items : list (string * pyval))
| VGlobal (name : string).

(** [x.git.describe("--tags", "--always", "--abbrev=0", "--match=%s*" % y)
      .replace(y, "").split("/")[1]] *)
Definition describe_lambda_body (x y : pyval) : result pyval :=
  match x, y with
  | VRepo r, VStr prefix =>
      match Git.describe r ["--tags"; "--always"; "--abbrev=0";
                            "--match=" +:+ prefix +:+ "*"] with
      | Ok out =>
          match Str.index (Str.split "/" (Str.replace prefix EmptyString out)) 1 with
          | Ok v => Ok (VStr v)
          | Raise e => Raise e
          end
      | Raise e => Raise e
      end
  | _, _ => Raise AttributeError
  end.

(** [f( *args, **kwargs)].  The objects of the module and of [builtins] are
    opaque here: the program never calls one through a value. *)
Definition call (f : pyval) (args : list pyval) (kwargs : list (string * pyval))
  : result pyval :=
  match f with
  | VFunction describe_lambda =>
      match args, kwargs with
      | [x; y], [] => describe_lambda_body x y
      | _, _ => Raise TypeError
      end
  | _ => Raise TypeError
  end.

(** The names bound at the top level of [build_changelog.py]. *)
Definition module_globals : list string :=
  ["__name__"; "__doc__"; "__file__"; "__builtins__"; "__spec__"; "__loader__";
   "__package__";
   "os"; "sys"; "re"; "git"; "datetime"; "email"; "argparse";
   "OrderedDict"; "namedtuple"; "changelog_entry"; "not_allowed_regex";
   "none_on_exception"; "sanitize_tag_version"; "slugify"; "tzinfo_from_offset";
   "SlimPackage"; "parser"; "args"; "repository"; "pkg"; "version"; "f"; "entry"].

(** The names of the [builtins] module. *)
Definition builtins : list string :=
  ["abs"; "aiter"; "all"; "anext"; "any"; "ascii"; "bin"; "bool"; "breakpoint";
   "bytearray"; "bytes"; "callable"; "chr"; "classmethod"; "compile"; "complex";
   "copyright"; "credits"; "delattr"; "dict"; "dir"; "divmod"; "enumerate";
   "eval"; "exec"; "exit"; "filter"; "float"; "format"; "frozenset"; "getattr";
   "globals"; "hasattr"; "hash"; "help"; "hex"; "id"; "input"; "int";
   "isinstance"; "issubclass"; "iter"; "len"; "license"; "list"; "locals";
   "map"; "max"; "memoryview"; "min"; "next"; "object"; "oct"; "open"; "ord";
   "pow"; "print"; "property"; "quit"; "range"; "repr"; "reversed"; "round";
   "set"; "setattr"; "slice"; "sorted"; "staticmethod"; "str"; "sum"; "super";
   "tuple"; "type"; "vars"; "zip"; "__import__"; "__build_class__"; "__debug__";
   "None"; "True"; "False"; "Ellipsis"; "NotImplemented";
   "BaseException"; "Exception"; "ArithmeticError"; "AssertionError";
   "AttributeError"; "BlockingIOError"; "BrokenPipeError"; "BufferError";
   "BytesWarning"; "ChildProcessError"; "ConnectionAbortedError";
   "ConnectionError"; "ConnectionRefusedError"; "ConnectionResetError";
   "DeprecationWarning"; "EOFError"; "EnvironmentError"; "FileExistsError";
   "FileNotFoundError"; "FloatingPointError"; "FutureWarning"; "GeneratorExit";
   "IOError"; "ImportError"; "ImportWarning"; "IndentationError"; "IndexError";
   "InterruptedError"; "IsADirectoryError"; "KeyError"; "KeyboardInterrupt";
   "LookupError"; "MemoryError"; "ModuleNotFoundError"; "NameError";
   "NotADirectoryError"; "NotImplementedError"; "OSError"; "OverflowError";
   "PendingDeprecationWarning"; "PermissionError"; "ProcessLookupError";
   "RecursionError"; "ReferenceError"; "ResourceWarning"; "RuntimeError";
   "RuntimeWarning"; "StopAsyncIteration"; "StopIteration"; "SyntaxError";
   "SyntaxWarning"; "SystemError"; "SystemExit"; "TabError"; "TimeoutError";
   "TypeError"; "UnboundLocalError"; "UnicodeDecodeError"; "UnicodeEncodeError";
   "UnicodeError"; "UnicodeTranslateError"; "UnicodeWarning"; "UserWarning";
   "ValueError"; "Warning"; "ZeroDivisionError"].

(** A name is looked up in the local scope, then among the globals of the
    module, then in [builtins]. *)
Definition load_name (locals : list (string * pyval)) (id : string) : result pyval :=
  match list_find (fun kv => fst kv = id) locals with
  | Some (_, (_, v)) => Ok v
  | None =>
      if bool_decide (id ∈ module_globals ++ builtins) then Ok (VGlobal id)
      else Raise (NameError id)
  end.

(** [def none_on_exception( *args, **kwargs)]: the only local names are
    [args] and [kwargs]. *)
Definition none_on_exception (args : list pyval) (kwargs : list (string * pyval))
  : pyval :=
  let locals := [("args", VTuple args); ("kwargs", VDict kwargs)] in
  match
    try_except
      (match load_name locals "func" with
       | Ok func => call func args kwargs
       | Raise e => Raise e
       end)
      (fun _ => Ok VNone)
  with
  | Ok v => v
  | Raise _ => VNone
  end.

(** ** The package object *)

Record SlimPackage : Type := {
  git_repository : Git.Repo;
  commit_hash : string;
  tag : option string;
  tag_prefix : string;
  branch : option string;
  branch_prefix : string;
  comment : string;
  _name : option string;
  _is_native : option bool;
  _version : option string;
  _release : option string
}.

(** [SlimPackage.__init__] *)
Definition SlimPackage_init (git_repository : Git.Repo) (commit_hash : string)
    (tag : option string) (tag_prefix : string)
    (branch : option string) (branch_prefix : string) (comment : string)
  : SlimPackage :=
  {| git_repository := git_repository;
     commit_hash := commit_hash;
     tag := tag;
     tag_prefix := tag_prefix;
     branch := branch;
     branch_prefix := branch_prefix;
     comment := slugify (Str.replace branch_prefix EmptyString comment);
     _name := None;
     _is_native := None;
     _version := None;
     _release := None |}.

Definition set__name (v : string) (p : SlimPackage) : SlimPackage :=
  {| git_repository := git_repository p; commit_hash := commit_hash p;
     tag := tag p; tag_prefix := tag_prefix p;
     branch := branch p; branch_prefix := branch_prefix p;
     comment := comment p;
     _name := Some v; _is_native := _is_native p;
     _version := _version p; _release := _release p |}.

Definition set__is_native (v : bool) (p : SlimPackage) : SlimPackage :=
  {| git_repository := git_repository p; commit_hash := commit_hash p;
     tag := tag p; tag_prefix := tag_prefix p;
     branch := branch p; branch_prefix := branch_prefix p;
     comment := comment p;
     _name := _name p; _is_native := Some v;
     _version := _version p; _release := _release p |}.

Definition set__version (v : string) (p : SlimPackage) : SlimPackage :=
  {| git_repository := git_repository p; commit_hash := commit_hash p;
     tag := tag p; tag_prefix := tag_prefix p;
     branch := branch p; branch_prefix := branch_prefix p;
     comment := comment p;
     _name := _name p; _is_native := _is_native p;
     _version := Some v; _release := _release p |}.

Definition set__release (v : string) (p : SlimPackage) : SlimPackage :=
  {| git_repository := git_repository p; commit_hash := commit_hash p;
     tag := tag p; tag_prefix := tag_prefix p;
     branch := branch p; branch_prefix := branch_prefix p;
     comment := comment p;
     _name := _name p; _is_native := _is_native p;
     _version := _version p; _release := Some v |}.

(** ** The state of a run and its monad *)

Record State : Type := {
  self : SlimPackage;
  world : World
}.

Definition M (A : Type) : Type := State -> State * result A.

Definition ret {A} (a : A) : M A := fun st => (st, Ok a).

Definition raise {A} (e : exn) : M A := fun st => (st, Raise e).

Definition bind {A B} (m : M A) (k : A -> M B) : M B :=
  fun st =>
    match m st with
    | (st', Ok a) => k a st'
    | (st', Raise e) => (st', Raise e)
    end.

Definition lift {A} (r : result A) : M A := fun st => (st, r).

Definition gets {A} (f : State -> A) : M A := fun st => (st, Ok (f st)).

Definition modify_self (f : SlimPackage -> SlimPackage) : M unit :=
  fun st => ({| self := f (self st); world := world st |}, Ok tt).

Notation "'do' x <- m ; k" := (bind m (fun x => k))
  (at level 10, x name, m at level 100, k at level 200).

(** The truth value of an optional string: [None] and the empty string are
    false. *)
Definition truthy (o : option string) : option string :=
  match o with
  | Some (String c s) => Some (String c s)
  | _ => None
  end.

(** ** Changelog entries *)

(** [changelog_entry = namedtuple("ChangelogEntry", ...)]; [contents] is an
    [OrderedDict] from an author to the list of that author's messages. *)
Record changelog_entry : Type := {
  author : string;
  mail : string;
  contents : list (string * list string);
  date : string
}.

(** [d.setdefault(key, []).insert(0, item)] on an [OrderedDict]: a new key
    goes to the end, a known key keeps its place. *)
Fixpoint setdefault_insert0 (d : list (string * list string)) (key item : string)
  : list (string * list string) :=
  match d with
  | [] => [(key, [item])]
  | (k, l) :: d' =>
      if String.eqb k key then (k, item :: l) :: d'
      else (k, l) :: setdefault_insert0 d' key item
  end.

(** A generator: suspended at a [yield], returned, or stopped by an
    exception, each with the state it left behind. *)
Inductive Gen (Y : Type) : Type :=
| GDone (st : State)
| GRaise (st : State) (e : exn)
| GYield (st : State) (y : Y) (resume : State -> Gen Y).
Arguments GDone {Y} st.
Arguments GRaise {Y} st e.
Arguments GYield {Y} st y resume.

(** [for y in g: body(y)] *)
Fixpoint for_each {Y} (g : Gen Y) (body : Y -> M unit) : State * result unit :=
  match g with
  | GDone st => (st, Ok tt)
  | GRaise st e => (st, Raise e)
  | GYield st y resume =>
      match body y st with
      | (st', Ok _) => for_each (resume st') body
      | (st', Raise e) => (st', Raise e)
      end
  end.

(** [list(g)], with the exception that ended the iteration, if any. *)
Fixpoint collect {Y} (g : Gen Y) : State * list Y * option exn :=
  match g with
  | GDone st => (st, [], None)
  | GRaise st e => (st, [], Some e)
  | GYield st y resume =>
      let '(st', ys, e) := collect (resume st) in (st', y :: ys, e)
  end.

(** The first line of a commit message: [message.split("\n")[0]]; [split]
    never returns the empty list. *)
Definition first_line (message : string) : string :=
  match Str.split "010" message with
  | l :: _ => l
  | [] => EmptyString
  end.

(** [release, version = l]: exactly two items, or [ValueError]. *)
Definition unpack2 {A} (l : list A) : result (A * A) :=
  match l with
  | [a; b] => Ok (a, b)
  | _ => Raise ValueError
  end.

(** ["%s" % v] for an optional string *)
Definition percent_s (v : option string) : string :=
  match v with
  | Some s => s
  | None => "None"
  end.

(** [SlimPackage.DEBIAN_CHANGELOG_TEMPLATE % {...}] *)
Definition DEBIAN_CHANGELOG_TEMPLATE
    (name version release content author mail date : string) : string :=
  name +:+ " (" +:+ version +:+ ") " +:+ release +:+ "; urgency=medium" +:+ Str.nl
  +:+ Str.nl
  +:+ content +:+ Str.nl
  +:+ Str.nl
  +:+ " -- " +:+ author +:+ " <" +:+ mail +:+ ">  " +:+ date +:+ Str.nl +:+ Str.nl.

(** The ["content"] of a stanza: the blocks of the authors, joined by a blank
    line. *)
Definition render_messages (messages : list string) : string :=
  Str.join Str.nl (map (fun message => "  * " +:+ message) messages).

Definition render_block (authors : nat) (item : string * list string) : string :=
  let '(author, messages) := item in
  if (1 <? authors)%nat
  then "  [ " +:+ author +:+ " ]" +:+ Str.nl +:+ render_messages messages
  else render_messages messages.

Definition render_content (contents : list (string * list string)) : string :=
  let authors := length contents in
  Str.join (Str.nl +:+ Str.nl) (map (render_block authors) contents).

(** The value yielded for a finalized entry. *)
Definition stanza_text (name version release : string) (entry : changelog_entry)
  : string :=
  DEBIAN_CHANGELOG_TEMPLATE name (sanitize_tag_version version) release
    (render_content (contents entry)) (author entry) (mail entry) (date entry).

(** The [tags] dictionary of [iter_changelog]: commit hash to tag name without
    the prefix; of two tags on one commit the later one stays. *)
Definition build_tags (tag_prefix : string) (l : list Git.TagReference)
  : gmap string string :=
  foldl
    (fun tags t =>
       if Str.startswith tag_prefix (Git.tag_name t)
       then <[Git.tag_commit t := Str.replace tag_prefix EmptyString (Git.tag_name t)]> tags
       else tags)
    ∅ l.

Section Program.

Context `{DateTime}.

(** *** [SlimPackage.get_version_from_changelog] *)
Definition get_version_from_changelog : M (option string) :=
  do s <- gets self;
  do w <- gets world;
  let _changelog_path :=
    os_path.join (Git.working_dir (git_repository s)) "debian/changelog" in
  if os_path_exists w _changelog_path then
    do content <- lift (open_read w _changelog_path);
    lift (try_except
            (match Str.index (Str.split " " (Str.readline content)) 1 with
             | Ok token => Ok (Some (Str.slice_1_m1 token))
             | Raise e => Raise e
             end)
            (fun _ => Ok None))
  else ret None.

(** *** [SlimPackage.name] *)
Definition name : M string :=
  do s <- gets self;
  match _name s with
  | Some n => ret n
  | None =>
      do w <- gets world;
      let _control_path :=
        os_path.join (Git.working_dir (git_repository s)) "debian/control" in
      if os_path_exists w _control_path then
        do content <- lift (open_read w _control_path);
        match List.find (Str.startswith "Source: ") (Str.lines content) with
        | Some line =>
            do n <- lift (Str.index_last (Str.split1 " " (Str.strip line)));
            do _ <- modify_self (set__name n);
            ret n
        | None => raise (Exception "Unable to determine the source package name!")
        end
      else raise (Exception "Unable to find debian/control")
  end.

(** *** [SlimPackage.is_native] *)
Definition is_native : M bool :=
  do s <- gets self;
  match _is_native s with
  | Some b => ret b
  | None =>
      do w <- gets world;
      let _source_format_path :=
        os_path.join (Git.working_dir (git_repository s)) "debian/source/format" in
      if os_path_exists w _source_format_path then
        do content <- lift (open_read w _source_format_path);
        let b := negb (String.eqb (Str.strip content) "3.0 (quilt)") in
        do _ <- modify_self (set__is_native b);
        ret b
      else raise (Exception "Unable to find debian/source/format")
  end.

(** *** [SlimPackage.version] *)

(** [_starting_version_strategies] *)
Definition _starting_version_strategies : list (M (option string)) :=
  [ (do s <- gets self;
     match tag s with
     | Some t =>
         do v <- lift (Str.index_last
                         (Str.split "/" (Str.replace (tag_prefix s) EmptyString t)));
         ret (Some v)
     | None => ret None
     end);
    (do s <- gets self;
     match none_on_exception
             [VFunction describe_lambda; VRepo (git_repository s); VStr (tag_prefix s)]
             [] with
     | VStr v => ret (Some v)
     | _ => ret None
     end);
    get_version_from_changelog;
    ret (Some "0.0.0") ].

(** The loop over the strategies, left at the first result that is not
    [None]. *)
Fixpoint first_not_none (strategies : list (M (option string)))
    (starting_version : option string) : M (option string) :=
  match strategies with
  | [] => ret starting_version
  | strategy :: rest =>
      do v <- strategy;
      match v with
      | Some _ => ret v
      | None => first_not_none rest v
      end
  end.

Definition version : M string :=
  do s <- gets self;
  match _version s with
  | Some v => ret v
  | None =>
      do starting_version <- first_not_none _starting_version_strategies None;
      do c <- lift (Git.commit (git_repository s) (commit_hash s));
      let v :=
        percent_s starting_version +:+ "+git"
        +:+ Str.join "."
              [ strftime (fromtimestamp (Git.committed_date c)) "%Y%m%d%H%M%S";
                Str.slice_to 7 (commit_hash s);
                comment s ] in
      do _ <- modify_self (set__version v);
      ret v
  end.

(** *** [SlimPackage.release] *)
Definition release : M string :=
  do s <- gets self;
  match truthy (_release s), tag s, branch s with
  | None, Some t, _ =>
      do r <- lift (Str.index (Str.split "/" (Str.replace (tag_prefix s) EmptyString t)) 0);
      do _ <- modify_self (set__release r);
      ret r
  | None, None, Some b =>
      do r <- lift (Str.index (Str.split "/" (Str.replace (branch_prefix s) EmptyString b)) 0);
      do _ <- modify_self (set__release r);
      ret r
  | None, None, None =>
      raise (Exception "At least one between tag and branch must be specified")
  | Some r, _, _ => ret r
  end.

(** *** [SlimPackage.iter_changelog] *)

(** [changelog_entry(author=..., mail=..., date=..., contents=OrderedDict())] *)
Definition new_entry (commit : Git.Commit) : changelog_entry :=
  {| author := Git.name (Git.author commit);
     mail := Git.email (Git.author commit);
     contents := [];
     date := format_datetime
               (from_timestamp (Git.committed_date commit)
                  (Git.committer_tz_offset commit)) |}.

(** [entry.contents.setdefault(commit.author.name, []).insert(0, ...)] *)
Definition add_commit (entry : changelog_entry) (commit : Git.Commit)
  : changelog_entry :=
  {| author := author entry;
     mail := mail entry;
     contents := setdefault_insert0 (contents entry)
                   (Git.name (Git.author commit)) (first_line (Git.message commit));
     date := date entry |}.

Definition is_boundary (tags : gmap string string) (commit_hash : string)
    (commit : Git.Commit) : bool :=
  bool_decide (is_Some (tags !! Git.hexsha commit))
  && negb (String.eqb (Git.hexsha commit) commit_hash)
  || bool_decide (Git.parents commit = []).

(** The body of the [for commit in ...] loop, from the commits still to
    visit.  [fmt] turns a finalized entry and the name, version and release
    it is published under into the value that is yielded. *)
Fixpoint walk {Y} (fmt : string -> string -> string -> changelog_entry -> Y)
    (tags : gmap string string) (commit_hash : string)
    (commits : list Git.Commit)
    (nearest_version : string) (entry : option changelog_entry)
    (st : State) : Gen Y :=
  match commits with
  | [] => GDone st
  | commit :: rest =>
      let next nearest_version entry st :=
        walk fmt tags commit_hash rest nearest_version
          (Some (add_commit (default (new_entry commit) entry) commit)) st in
      if is_boundary tags commit_hash commit then
        match unpack2 (Str.split "/" nearest_version) with
        | Raise e => GRaise st e
        | Ok (release, version) =>
            let entry :=
              if bool_decide (Git.parents commit = [])
              then Some (add_commit (default (new_entry commit) entry) commit)
              else entry in
            match entry with
            | None => GRaise st AttributeError
            | Some e =>
                match name st with
                | (st', Raise ex) => GRaise st' ex
                | (st', Ok n) =>
                    GYield st' (fmt n version release e)
                      (fun st'' =>
                         if bool_decide (Git.parents commit = [])
                         then next nearest_version None st''
                         else match tags !! Git.hexsha commit with
                              | Some v => next v None st''
                              | None => GRaise st'' (KeyError (Git.hexsha commit))
                              end)
                end
            end
        end
      else next nearest_version entry st
  end.

(** The generator, started in [st]. *)
Definition iter_changelog_with {Y}
    (fmt : string -> string -> string -> changelog_entry -> Y) (st : State)
  : Gen Y :=
  let tags := build_tags (tag_prefix (self st)) (Git.tags (git_repository (self st))) in
  match release st with
  | (st1, Raise e) => GRaise st1 e
  | (st1, Ok r) =>
      match version st1 with
      | (st2, Raise e) => GRaise st2 e
      | (st2, Ok v) =>
          let nearest_version := r +:+ "/" +:+ v in
          match Git.iter_commits (git_repository (self st2)) (commit_hash (self st2)) with
          | Raise e => GRaise st2 e
          | Ok commits =>
              walk fmt tags (commit_hash (self st2)) commits nearest_version None st2
          end
      end
  end.

Definition iter_changelog : State -> Gen string := iter_changelog_with stanza_text.

(** The finalized entries themselves, with what they are published under. *)
Definition iter_entries : State -> Gen (string * string * string * changelog_entry) :=
  iter_changelog_with (fun n v r e => (n, v, r, e)).

End Program.

(** ** The command line and the script body *)

Module Args.

(** The namespace [parser.parse_args()] returns. *)
Record t : Type := {
  commit : option string;
  git_repository : string;
  tag : option string;
  tag_prefix : string;
  branch : option string;
  branch_prefix : string;
  comment : string
}.

(** The namespace of a command line without options, run in [cwd]. *)
Definition defaults (cwd : string) : t :=
  {| commit := None;
     git_repository := cwd;
     tag := None;
     tag_prefix := "hybris-mobian/";
     branch := None;
     branch_prefix := "feature/";
     comment := "release" |}.

End Args.

Definition changelog_file : string := "debian/changelog".

Section Main.

Context `{DateTime}.

(** [git.Repo(path, odbt=git.GitCmdObjectDB)] *)
Variable git_Repo : string -> result Git.Repo.

(** The statements of the script after the package object is built. *)
Definition build (st : State) : State * result unit :=
  match version st with
  | (st1, Raise e) => (st1, Raise e)
  | (st1, Ok version) =>
      let st2 :=
        {| self := self st1;
           world := print (world st1) ("I: Resulting version is " +:+ version) |} in
      match open_write (world st2) changelog_file with
      | (w3, Raise e) => ({| self := self st2; world := w3 |}, Raise e)
      | (w3, Ok _) =>
          for_each (iter_changelog {| self := self st2; world := w3 |})
            (fun entry st =>
               ({| self := self st;
                   world := file_write (world st) changelog_file entry |}, Ok tt))
      end
  end.

(** [args.commit or repository.head.commit.hexsha] *)
Definition commit_argument (args : Args.t) (repository : Git.Repo) : result string :=
  match truthy (Args.commit args) with
  | Some c => Ok c
  | None => Git.head_commit_hexsha repository
  end.

(** [args.branch or (None if args.tag else repository.active_branch.name)] *)
Definition branch_argument (args : Args.t) (repository : Git.Repo)
  : result (option string) :=
  match truthy (Args.branch args) with
  | Some b => Ok (Some b)
  | None =>
      match truthy (Args.tag args) with
      | Some _ => Ok None
      | None =>
          match Git.active_branch_name repository with
          | Ok b => Ok (Some b)
          | Raise e => Raise e
          end
      end
  end.

(** [if __name__ == "__main__":] *)
Definition main (args : Args.t) (w : World) : World * result unit :=
  match git_Repo (Args.git_repository args) with
  | Raise _ =>
      (w, Raise (Exception
                   ("Unable to load git repository at " +:+ Args.git_repository args
                    +:+ ". You can use --git-repository to change the repo path")))
  | Ok repository =>
      match commit_argument args repository with
      | Raise e => (w, Raise e)
      | Ok commit_hash =>
          match branch_argument args repository with
          | Raise e => (w, Raise e)
          | Ok branch =>
              let pkg :=
                SlimPackage_init repository commit_hash
                  (Args.tag args) (Args.tag_prefix args)
                  branch (Args.branch_prefix args) (Args.comment args) in
              let '(st, r) := build {| self := pkg; world := w |} in
              (world st, r)
          end
      end
  end.

End Main.

(** ** A concrete calendar

    An instance of [DateTime] for a process whose local time zone is UTC,
    exact for the years 1 to 9999 of the proleptic Gregorian calendar. *)

Module Calendar.

Local Open Scope Z_scope.

(** An instant and the offset of its time zone, in seconds east of UTC. *)
Record t : Type := { epoch : Z; utcoffset : Z }.

Definition wall (d : t) : Z := epoch d + utcoffset d.

(** Year, month and day of a day count from 1970-01-01. *)
Definition civil (days : Z) : Z * Z * Z :=
  let z := days + 719468 in
  let era := z / 146097 in
  let doe := z - era * 146097 in
  let yoe := (doe - doe / 1460 + doe / 36524 - doe / 146096) / 365 in
  let doy := doe - (365 * yoe + yoe / 4 - yoe / 100) in
  let mp := (5 * doy + 2) / 153 in
  let d := doy - (153 * mp + 2) / 5 + 1 in
  let m := if mp <? 10 then mp + 3 else mp - 9 in
  let y := yoe + era * 400 + (if m <=? 2 then 1 else 0) in
  (y, m, d).

Definition year (d : t) : Z := fst (fst (civil (wall d / 86400))).
Definition month (d : t) : Z := snd (fst (civil (wall d / 86400))).
Definition day (d : t) : Z := snd (civil (wall d / 86400)).
Definition hour (d : t) : Z := (wall d mod 86400) / 3600.
Definition minute (d : t) : Z := (wall d mod 3600) / 60.
Definition second (d : t) : Z := wall d mod 60.

Definition decimal (z : Z) : string := NilZero.string_of_uint (N.to_uint (Z.to_N z)).

Fixpoint zeros (n : nat) : string :=
  match n with
  | O => EmptyString
  | S k => String "0" (zeros k)
  end.

(** [z] in decimal, padded with zeros to [width] digits *)
Definition pad (width : nat) (z : Z) : string :=
  zeros (width - String.length (decimal z)) +:+ decimal z.

Definition directive (c : ascii) (d : t) : string :=
  if Ascii.eqb c "Y" then pad 4 (year d)
  else if Ascii.eqb c "m" then pad 2 (month d)
  else if Ascii.eqb c "d" then pad 2 (day d)
  else if Ascii.eqb c "H" then pad 2 (hour d)
  else if Ascii.eqb c "M" then pad 2 (minute d)
  else if Ascii.eqb c "S" then pad 2 (second d)
  else if Ascii.eqb c "%" then "%"
  else String "%" (String c EmptyString).

Fixpoint strftime_scan (d : t) (after_percent : bool) (fmt : string) : string :=
  match fmt with
  | EmptyString => if after_percent then "%" else EmptyString
  | String c fmt' =>
      if after_percent then directive c d +:+ strftime_scan d false fmt'
      else if Ascii.eqb c "%" then strftime_scan d true fmt'
      else String c (strftime_scan d false fmt')
  end.

Definition strftime (d : t) (fmt : string) : string := strftime_scan d false fmt.

Definition weekday_name (d : t) : string :=
  nth (Z.to_nat ((wall d / 86400 + 3) mod 7))
    ["Mon"; "Tue"; "Wed"; "Thu"; "Fri"; "Sat"; "Sun"] EmptyString.

Definition month_name (d : t) : string :=
  nth (Z.to_nat (month d - 1))
    ["Jan"; "Feb"; "Mar"; "Apr"; "May"; "Jun";
     "Jul"; "Aug"; "Sep"; "Oct"; "Nov"; "Dec"] EmptyString.

Definition zone (d : t) : string :=
  (if utcoffset d <? 0 then "-" else "+")
  +:+ pad 2 (Z.abs (utcoffset d) / 3600)
  +:+ pad 2 (Z.abs (utcoffset d) mod 3600 / 60).

(** [email.utils.format_datetime] of an aware datetime *)
Definition format_datetime (d : t) : string :=
  weekday_name d +:+ ", " +:+ pad 2 (day d) +:+ " " +:+ month_name d +:+ " "
  +:+ pad 4 (year d) +:+ " "
  +:+ pad 2 (hour d) +:+ ":" +:+ pad 2 (minute d) +:+ ":" +:+ pad 2 (second d)
  +:+ " " +:+ zone d.

(** [datetime.datetime.fromtimestamp(t)], the local zone being UTC *)
Definition fromtimestamp (t : Z) : Calendar.t := {| epoch := t; utcoffset := 0 |}.

(** [git.objects.util.from_timestamp(t, tz_offset)]: git counts the offset
    in seconds west of UTC; an offset of a day or more is replaced by UTC. *)
Definition from_timestamp (t tz_offset : Z) : Calendar.t :=
  if (-86400 <? tz_offset) && (tz_offset <? 86400)
  then {| epoch := t; utcoffset := - tz_offset |}
  else {| epoch := t; utcoffset := 0 |}.

End Calendar.

#[local] Instance utc_calendar : DateTime := {|
  datetime := Calendar.t;
  fromtimestamp := Calendar.fromtimestamp;
  strftime := Calendar.strftime;
  from_timestamp := Calendar.from_timestamp;
  format_datetime := Calendar.format_datetime
|}.

(** ** Sample repositories and runs *)

Module Sample.

Definition hash3 : string := "c3c3c3c3c3c3c3c3c3c3c3c3c3c3c3c3c3c3c3c3".
Definition hash2 : string := "b2b2b2b2b2b2b2b2b2b2b2b2b2b2b2b2b2b2b2b2".
Definition hash1 : string := "a1a1a1a1a1a1a1a1a1a1a1a1a1a1a1a1a1a1a1a1".

Definition alice : Git.Actor := {| Git.name := "Alice"; Git.email := "alice@example.org" |}.
Definition bob : Git.Actor := {| Git.name := "Bob"; Git.email := "bob@example.org" |}.

Definition c1 : Git.Commit :=
  {| Git.hexsha := hash1; Git.parents := []; Git.author := alice;
     Git.committed_date := 1577880000; Git.committer_tz_offset := 0;
     Git.message := "Initial import" +:+ Str.nl +:+ Str.nl +:+ "Details." |}.
Definition c2 : Git.Commit :=
  {| Git.hexsha := hash2; Git.parents := [hash1]; Git.author := bob;
     Git.committed_date := 1577966400; Git.committer_tz_offset := 0;
     Git.message := "Add packaging" |}.
Definition c3 : Git.Commit :=
  {| Git.hexsha := hash3; Git.parents := [hash2]; Git.author := alice;
     Git.committed_date := 1578052800; Git.committer_tz_offset := 0;
     Git.message := "Fix build" |}.

(** The commits reachable from [rev] in a linear history, newest first. *)
Fixpoint log (history : list Git.Commit) (rev : string) : result (list Git.Commit) :=
  match history with
  | [] => Raise GitCommandError
  | c :: older =>
      if String.eqb (Git.hexsha c) rev then Ok history else log older rev
  end.

(** A repository with a linear history, checked out at its newest commit on
    the branch [master]; [described] is what [git describe] prints. *)
Definition repo (history : list Git.Commit) (tags : list Git.TagReference)
    (described : result string) : Git.Repo :=
  {| Git.working_dir := "/repo";
     Git.tags := tags;
     Git.commit := fun rev =>
       match log history rev with
       | Ok (c :: _) => Ok c
       | _ => Raise GitCommandError
       end;
     Git.iter_commits := log history;
     Git.describe := fun _ => described;
     Git.head_commit_hexsha :=
       match history with
       | c :: _ => Ok (Git.hexsha c)
       | [] => Raise ValueError
       end;
     Git.active_branch_name := Ok "master" |}.

Definition control : string :=
  "Source: hello" +:+ Str.nl +:+ "Section: misc" +:+ Str.nl.

(** A checkout with [debian/control] and no changelog. *)
Definition packaged : World :=
  {| files := <["/repo/debian/control" := File control]>
                (<["/repo/debian" := Dir]> (<["/repo" := Dir]> ∅));
     stdout := [];
     cwd := "/repo" |}.

(** A checkout without [debian/control], with a changelog of an earlier
    run. *)
Definition uncontrolled : World :=
  {| files := <["/repo/debian/changelog" := File "hello (1.0) bullseye; urgency=medium"]>
                (<["/repo/debian" := Dir]> (<["/repo" := Dir]> ∅));
     stdout := [];
     cwd := "/repo" |}.

Definition release_tag : Git.TagReference :=
  {| Git.tag_name := "hybris-mobian/bullseye/1.2.3"; Git.tag_commit := hash2 |}.

Definition short_tag : Git.TagReference :=
  {| Git.tag_name := "hybris-mobian/v1"; Git.tag_commit := hash2 |}.

(** Three commits, the middle one tagged [hybris-mobian/bullseye/1.2.3]. *)
Definition tagged : Git.Repo :=
  repo [c3; c2; c1] [release_tag] (Ok "hybris-mobian/bullseye/1.2.3").

(** Three commits, the middle one tagged [hybris-mobian/v1]. *)
Definition short_tagged : Git.Repo :=
  repo [c3; c2; c1] [short_tag] (Ok "hybris-mobian/v1").

(** Three commits and no tag. *)
Definition untagged : Git.Repo := repo [c3; c2; c1] [] (Ok hash3).

(** A single root commit, no tags: [git describe --always] prints the hash. *)
Definition root_only : Git.Repo := repo [c1] [] (Ok hash1).

Definition loader (r : Git.Repo) (path : string) : result Git.Repo :=
  if String.eqb path "/repo" then Ok r else Raise GitCommandError.

Definition package (r : Git.Repo) (rev : string) : SlimPackage :=
  SlimPackage_init r rev None "hybris-mobian/" (Some "master") "feature/" "release".

Definition start (r : Git.Repo) (rev : string) (w : World) : State :=
  {| self := package r rev; world := w |}.

(** [build_changelog.py --tag hybris-mobian/bullseye/1.0_rc1] in [/repo] *)
Definition rc_args : Args.t :=
  {| Args.commit := None;
     Args.git_repository := "/repo";
     Args.tag := Some "hybris-mobian/bullseye/1.0_rc1";
     Args.tag_prefix := "hybris-mobian/";
     Args.branch := None;
     Args.branch_prefix := "feature/";
     Args.comment := "release" |}.

End Sample.

(** *** The full version as the specification words it: the time stamp and
    the short hash adjacent, then a dot and the comment. *)
Definition spec_full_version (base timestamp commit_hash comment : string) : string :=
  base +:+ "+git" +:+ timestamp +:+ Str.slice_to 7 commit_hash +:+ "." +:+ comment.

(** *** Vocabulary for the entries of the walk *)

(** What a generator yields when it is run to its end, and the exception
    that ends it, if any. *)
Definition yielded {Y} (g : Gen Y) : list Y := snd (fst (collect g)).
Definition outcome {Y} (g : Gen Y) : option exn := snd (collect g).
Definition final_state {Y} (g : Gen Y) : State := fst (fst (collect g)).

(** [d.get(key)] on an ordered dictionary *)
Fixpoint dict_get (d : list (string * list string)) (key : string)
  : option (list string) :=
  match d with
  | [] => None
  | (k, l) :: d' => if String.eqb k key then Some l else dict_get d' key
  end.

(** [key in keys] *)
Definition mem (key : string) (keys : list string) : bool :=
  existsb (String.eqb key) keys.

(** The distinct items of a list, in the order of their first occurrence. *)
Fixpoint first_seen (l : list string) : list string :=
  match l with
  | [] => []
  | x :: l' => x :: List.filter (fun y => negb (String.eqb x y)) (first_seen l')
  end.

Definition author_name (c : Git.Commit) : string := Git.name (Git.author c).

(** The first message lines of the commits of [a] among [seg], in the order
    of [seg]. *)
Definition messages_of (a : string) (seg : list Git.Commit) : list string :=
  map (fun c => first_line (Git.message c))
    (List.filter (fun c => String.eqb (author_name c) a) seg).

(** The entry the walk builds over the commits [seg], newest first: opened at
    the first of them, every one of them added. *)
Definition entry_of `{DateTime} (seg : list Git.Commit) : option changelog_entry :=
  match seg with
  | [] => None
  | c :: _ => Some (foldl add_commit (new_entry c) seg)
  end.

(** [seg] is a run of consecutive items of [l]. *)
Definition infix {A} (seg l : list A) : Prop :=
  exists before after, l = before ++ seg ++ after.

(** *** Sanitization as the specification words it: every [_] becomes [~]
    and every [%] becomes [:]. *)
Definition sanitize_char (c : ascii) : ascii :=
  if Ascii.eqb c "_" then "~"%char
  else if Ascii.eqb c "%" then ":"%char
  else c.

Fixpoint spec_sanitize (s : string) : string :=
  match s with
  | EmptyString => EmptyString
  | String c s' => String (sanitize_char c) (spec_sanitize s')
  end.

(** Two states of one run: the same package object up to its cached
    properties. *)
Definition same_object (p q : SlimPackage) : Prop :=
  git_repository p = git_repository q /\ commit_hash p = commit_hash q
  /\ tag p = tag q /\ tag_prefix p = tag_prefix q
  /\ branch p = branch q /\ branch_prefix p = branch_prefix q
  /\ comment p = comment q.

(** ** [tzinfo_from_offset]

    The offset is a string such as [+0100], or a number; [str] gives its
    text.  The pattern [([+\-]?)(\d{2})(\d{2})] is matched at the start of
    the text, and what follows the match is not looked at.  The time zone
    that is returned is given by its offset from UTC, in seconds. *)

Inductive offset_value : Type :=
| OffsetStr (s : string)
| OffsetInt (z : Z).

(** [str(offset)] *)
Definition str_of_offset (offset : offset_value) : string :=
  match offset with
  | OffsetStr s => s
  | OffsetInt z => NilZero.string_of_int (Z.to_int z)
  end.

Definition is_digit (c : ascii) : bool := (("0" <=? c) && (c <=? "9"))%char.

(** [int(s)] for a string of decimal digits *)
Definition int_of_digits (s : string) : Z :=
  fold_left (fun n c => 10 * n + (Z.of_nat (nat_of_ascii c) - 48))%Z
    (list_ascii_of_string s) 0%Z.

(** [re.match('([+\-]?)(\d{2})(\d{2})', s).groups()]; without a match
    [re.match] gives [None], which has no [groups]. *)
Definition tzinfo_groups (s : string) : result (string * string * string) :=
  let '(sign, rest) :=
    match s with
    | String c r =>
        if (Ascii.eqb c "+" || Ascii.eqb c "-")%bool
        then (String c EmptyString, r) else (EmptyString, s)
    | EmptyString => (EmptyString, EmptyString)
    end in
  match rest with
  | String h1 (String h2 (String m1 (String m2 _))) =>
      if (is_digit h1 && is_digit h2 && is_digit m1 && is_digit m2)%bool
      then Ok (sign, String h1 (String h2 EmptyString),
               String m1 (String m2 EmptyString))
      else Raise AttributeError
  | _ => Raise AttributeError
  end.

(** [datetime.timezone(delta)] takes an offset strictly between minus and plus
    24 hours. *)
Definition timezone (delta : Z) : result Z :=
  if ((-86400 <? delta) && (delta <? 86400))%Z then Ok delta else Raise ValueError.

Definition tzinfo_from_offset (offset : offset_value) : result Z :=
  match tzinfo_groups (str_of_offset offset) with
  | Raise e => Raise e
  | Ok (sign, hours, minutes) =>
      let sign := (if String.eqb sign "-" then -1 else 1)%Z in
      let hours := int_of_digits hours in
      let minutes := int_of_digits minutes in
      timezone (sign * (hours * 3600 + minutes * 60))%Z
  end.

(** *** Vocabulary for the properties below *)

(** Is the number refused for want of a match? *)
Definition short_number_refused (z : Z) : bool :=
  match tzinfo_from_offset (OffsetInt z) with
  | Raise AttributeError => true
  | _ => false
  end.


(** The two decimal digits of a number below 100. *)
Definition two_digits (n : nat) : string :=
  String (ascii_of_nat (48 + n / 10))
    (String (ascii_of_nat (48 + n mod 10)) EmptyString).

(** The characters a slug is made of. *)
Definition slug_char (c : ascii) : bool := allowed_char c || Ascii.eqb c ".".

(** No two dots side by side. *)
Fixpoint no_double_dot (s : string) : bool :=
  match s with
  | EmptyString => true
  | String c s' =>
      negb (Ascii.eqb c "." && starts_in_class (fun d => Ascii.eqb d ".") s')
      && no_double_dot s'
  end.

Definition is_whitespace (s : string) : bool := all_chars Str.is_space s.

(** The messages of an entry, all authors together. *)
Definition all_messages (e : changelog_entry) : list string :=
  concat (map snd (contents e)).

(** *** More sample data *)

Definition sample_entry : changelog_entry :=
  {| author := "Alice"; mail := "alice@example.org";
     contents := [("Alice", ["Fix build"])];
     date := "Fri, 03 Jan 2020 12:00:00 +0000" |}.

(** The sample checkout after a run that wrote one stanza for the version
    [1.0_rc1]. *)
Definition sample_written : World :=
  {| files := <["/repo/debian/changelog" :=
                 File (stanza_text "hello" "1.0_rc1" "bullseye" sample_entry
                       +:+ EmptyString)]>
                (files Sample.packaged);
     stdout := [];
     cwd := "/repo" |}.

(** The sample checkout of a package in the quilt format. *)
Definition sample_quilt : World :=
  {| files := <["/repo/debian/source/format" := File ("3.0 (quilt)" +:+ Str.nl)]>
                (<["/repo/debian/source" := Dir]> (files Sample.packaged));
     stdout := [];
     cwd := "/repo" |}.

(** The name that is read from the rest of a [Source: ] line. *)
Definition name_of_tail (tail : string) : string :=
  match Str.rstrip tail with
  | EmptyString => "Source:"
  | t => t
  end.

(** The sample checkout with a [debian/control] that names no source. *)
Definition sample_nameless : World :=
  {| files := <["/repo/debian/control" := File ("Section: misc" +:+ Str.nl)]>
                (files Sample.packaged);
     stdout := [];
     cwd := "/repo" |}.

(** The sample history with the tag [hybris-mobian/bullseye/2.0] on its
    newest commit, which can also be named [HEAD]. *)
Definition sample_head_tagged : Git.Repo :=
  {| Git.working_dir := "/repo";
     Git.tags := [{| Git.tag_name := "hybris-mobian/bullseye/2.0";
                     Git.tag_commit := Sample.hash3 |}];
     Git.commit := fun rev =>
       if String.eqb rev "HEAD" then Ok Sample.c3
       else Git.commit Sample.untagged rev;
     Git.iter_commits := fun rev =>
       if String.eqb rev "HEAD" then Ok [Sample.c3; Sample.c2; Sample.c1]
       else Git.iter_commits Sample.untagged rev;
     Git.describe := fun _ => Ok "hybris-mobian/bullseye/2.0";
     Git.head_commit_hexsha := Ok Sample.hash3;
     Git.active_branch_name := Ok "master" |}.

(** The body of the loop of the script: [f.write(entry)]. *)
Definition write_entry (entry : string) : M unit :=
  fun st =>
    ({| self := self st; world := file_write (world st) changelog_file entry |}, Ok tt).

(** The result of a loop over a generator that ended with [outcome]. *)
Definition result_of_outcome (o : option exn) : result unit :=
  match o with
  | None => Ok tt
  | Some e => Raise e
  end.

(** ** The specification's own words

    The definitions below follow the wording of the documentation, not the
    code: they are what the code is compared with.

    A name with its prefix stripped: the prefix taken off the front of the
    name, once, when the name starts with it. *)
Definition spec_strip_prefix (prefix s : string) : string :=
  if String.prefix prefix s
  then String.substring (String.length prefix)
         (String.length s - String.length prefix) s
  else s.

(** The class [[a-z0-9_]], by its members. *)
Definition spec_slug_alphabet : list ascii :=
  list_ascii_of_string "abcdefghijklmnopqrstuvwxyz0123456789_".

Definition spec_slug_class (c : ascii) : bool :=
  existsb (Ascii.eqb c) spec_slug_alphabet.

(** A string in lower case: every capital Latin letter replaced by the small
    letter at the same place of the alphabet. *)
Fixpoint translate (from to : list ascii) (c : ascii) : ascii :=
  match from, to with
  | a :: from', b :: to' => if Ascii.eqb c a then b else translate from' to' c
  | _, _ => c
  end.

Definition spec_lower_char : ascii -> ascii :=
  translate (list_ascii_of_string "ABCDEFGHIJKLMNOPQRSTUVWXYZ")
            (list_ascii_of_string "abcdefghijklmnopqrstuvwxyz").

Fixpoint spec_lower (s : string) : string :=
  match s with
  | EmptyString => EmptyString
  | String c s' => String (spec_lower_char c) (spec_lower s')
  end.





(** ** The later states of a package object

    What the program does to a package once it is built: it changes files,
    and it reads the four properties, each of which may fill its cache. *)
Inductive later `{DateTime} (st : State) : State -> Prop :=
| later_now : later st st
| later_files (st1 : State) (w : World) :
    later st st1 -> later st {| self := self st1; world := w |}
| later_name (st1 st2 : State) (r : result string) :
    later st st1 -> name st1 = (st2, r) -> later st st2
| later_is_native (st1 st2 : State) (r : result bool) :
    later st st1 -> is_native st1 = (st2, r) -> later st st2
| later_version (st1 st2 : State) (r : result string) :
    later st st1 -> version st1 = (st2, r) -> later st st2
| later_release (st1 st2 : State) (r : result string) :
    later st st1 -> release st1 = (st2, r) -> later st st2.

(** * Properties *)

(** ** Strings *)

Example slugify_example : slugify "feature/My Branch--X_1" = "feature.my.branch.x_1".
Proof. reflexivity. Qed.

Example sanitize_example : sanitize_tag_version "1%2.0_rc1" = "1:2.0~rc1".
Proof. reflexivity. Qed.

Example split_example : Str.split "/" "a//b/" = ["a"; EmptyString; "b"; EmptyString].
Proof. reflexivity. Qed.

Example split1_example : Str.split1 " " "Source: a b" = ["Source:"; "a b"].
Proof. reflexivity. Qed.

Example replace_example : Str.replace "aa" "b" "aaaxaa" = "baxb".
Proof. reflexivity. Qed.

Example replace_empty_example : Str.replace EmptyString "-" "ab" = "-a-b-".
Proof. reflexivity. Qed.

Example lines_example :
  Str.lines ("ab" +:+ Str.nl +:+ Str.nl +:+ "c") = ["ab" +:+ Str.nl; Str.nl; "c"].
Proof. reflexivity. Qed.

Example strip_example : Str.strip ("  a b " +:+ Str.nl) = "a b".
Proof. reflexivity. Qed.

Example slice_example : Str.slice_1_m1 "(1.0-1)" = "1.0-1".
Proof. reflexivity. Qed.

Example maximal_runs_example :
  maximal_runs not_allowed_regex "a--b" = [(false, "a"); (true, "--"); (false, "b")].
Proof. reflexivity. Qed.

Example dirname_example : os_path.dirname "/repo/debian/changelog" = "/repo/debian".
Proof. reflexivity. Qed.

Example format_datetime_example :
  format_datetime (from_timestamp 1577880000 (-3600)) = "Wed, 01 Jan 2020 13:00:00 +0100".
Proof. reflexivity. Qed.

Example changelog_version_example :
  snd (get_version_from_changelog
         (Sample.start Sample.tagged Sample.hash3 Sample.uncontrolled))
  = Ok (Some "1.0").
Proof. reflexivity. Qed.

Lemma append_empty_r (x : string) : x +:+ EmptyString = x.
Proof. induction x as [|c x IH]; simpl; [reflexivity|]. by rewrite IH. Qed.

Lemma append_assoc (x y z : string) : (x +:+ y) +:+ z = x +:+ (y +:+ z).
Proof. induction x as [|c x IH]; simpl; [reflexivity|]. by rewrite IH. Qed.

Lemma join_empty_cons (x : string) (l : list string) :
  Str.join EmptyString (x :: l) = x +:+ Str.join EmptyString l.
Proof.
  destruct l as [|y l]; simpl; [|reflexivity]. by rewrite append_empty_r.
Qed.

Lemma split_not_nil (sep : ascii) (s : string) : Str.split sep s <> [].
Proof.
  destruct s as [|c s]; simpl; [discriminate|].
  destruct (Ascii.eqb c sep); [discriminate|].
  destruct (Str.split sep s); discriminate.
Qed.

Lemma prefix_append (old rest : string) : String.prefix old (old +:+ rest) = true.
Proof.
  induction old as [|c old IH]; [by destruct rest|].
  simpl. by destruct (ascii_dec c c).
Qed.

Lemma prefix_occurs (old s : string) :
  String.prefix old s = true -> Str.occurs old s.
Proof.
  intros Hp. exists EmptyString. cbn [String.append].
  revert s Hp. induction old as [|c old IH]; intros s Hp.
  { by exists s. }
  destruct s as [|d s]; [discriminate|]. simpl in Hp.
  destruct (ascii_dec c d) as [<-|]; [|discriminate].
  destruct (IH s Hp) as (after & ->). by exists after.
Qed.

(** Passing over the rest of an occurrence that has been replaced. *)
Lemma replace_scan_skip (old new x s : string) :
  Str.replace_scan old new (String.length x) (x +:+ s) = Str.replace_scan old new 0 s.
Proof. induction x as [|c x IH]; [reflexivity|]. exact IH. Qed.

Lemma replace_scan_no_occurrence (old new s : string) :
  ~ Str.occurs old s -> Str.replace_scan old new 0 s = s.
Proof.
  induction s as [|c s IH]; intros Hno; [reflexivity|].
  cbn [Str.replace_scan].
  destruct (String.prefix old (String c s)) eqn:Hp.
  { destruct Hno. by apply prefix_occurs. }
  rewrite IH; [reflexivity|].
  intros (before & after & ->). apply Hno. by exists (String c before), after.
Qed.

(** Where the prefix heads the string and occurs nowhere else in it,
    [s.replace(prefix, "")] strips the prefix. *)
Lemma replace_strips_prefix (prefix rest : string) :
  ~ Str.occurs prefix rest ->
  Str.replace prefix EmptyString (prefix +:+ rest) = rest.
Proof.
  intros Hno. destruct prefix as [|c prefix].
  { destruct Hno. by exists EmptyString, rest. }
  unfold Str.replace. cbn [String.append Str.replace_scan].
  change (String c (prefix +:+ rest)) with (String c prefix +:+ rest).
  rewrite prefix_append. cbn [String.length Nat.sub String.append].
  rewrite Nat.sub_0_r, replace_scan_skip. by apply replace_scan_no_occurrence.
Qed.

(** ** The slug (C9) *)

Section Runs.

Variable cls : ascii -> bool.
Variable repl : string.

Abbreviation starts_in_class := (starts_in_class cls).

Lemma maximal_runs_head (c : ascii) (s : string) :
  exists r rest, maximal_runs cls (String c s) = (cls c, String c r) :: rest.
Proof.
  simpl. destruct (maximal_runs cls s) as [|[b r] rest]; [by eexists _, _|].
  destruct (Bool.eqb b (cls c)) eqn:E; [|by eexists _, _].
  apply Bool.eqb_prop in E. subst b. by eexists _, _.
Qed.

Lemma replace_runs_cons (c : ascii) (s : string) :
  replace_runs cls repl (String c s) =
    if cls c
    then if starts_in_class s then replace_runs cls repl s
         else repl +:+ replace_runs cls repl s
    else String c (replace_runs cls repl s).
Proof.
  unfold replace_runs. destruct s as [|d s].
  { simpl. destruct (cls c); simpl; [|reflexivity]. by rewrite append_empty_r. }
  destruct (maximal_runs_head d s) as (r & rest & Hd).
  change (maximal_runs cls (String c (String d s))) with
    (match maximal_runs cls (String d s) with
     | (b, r) :: rest =>
         if Bool.eqb b (cls c) then (b, String c r) :: rest
         else (cls c, String c EmptyString) :: (b, r) :: rest
     | [] => [(cls c, String c EmptyString)]
     end).
  rewrite Hd. cbn [starts_in_class].
  destruct (cls d) eqn:Ed, (cls c) eqn:Ec; cbn [Bool.eqb map];
    rewrite ?join_empty_cons; reflexivity.
Qed.

(** The scan that has just replaced a match and passes over the rest of
    it. *)
Lemma sub_scan_spec (s : string) :
  Re.sub cls repl s = replace_runs cls repl s
  /\ repl +:+ Re.sub_scan cls repl (Re.match_len cls s) s =
       if starts_in_class s then replace_runs cls repl s
       else repl +:+ replace_runs cls repl s.
Proof.
  unfold Re.sub. induction s as [|c s [IH1 IH2]].
  { split; reflexivity. }
  rewrite replace_runs_cons. cbn [starts_in_class].
  cbn [Re.sub_scan Re.match_len]. destruct (cls c) eqn:Ec.
  - split; exact IH2.
  - rewrite IH1. split; reflexivity.
Qed.

Lemma maximal_runs_concat (s : string) :
  Str.join EmptyString (map snd (maximal_runs cls s)) = s.
Proof.
  induction s as [|c s IH]; [reflexivity|].
  simpl. destruct (maximal_runs cls s) as [|[b r] rest] eqn:E.
  { simpl in IH. by subst s. }
  destruct (Bool.eqb b (cls c)); cbn [map snd] in *;
    rewrite ?join_empty_cons in *; simpl; by rewrite IH.
Qed.

Lemma maximal_runs_are_runs (s : string) :
  Forall (is_run cls) (maximal_runs cls s).
Proof.
  induction s as [|c s IH]; simpl; [constructor|].
  destruct (maximal_runs cls s) as [|[b r] rest] eqn:E.
  { repeat constructor; simpl; [discriminate|].
    by rewrite Bool.eqb_reflx. }
  inversion IH as [|? ? [Hne Hall] Hrest]; subst.
  destruct (Bool.eqb b (cls c)) eqn:Eb.
  - constructor; [|done]. split; simpl in *; [discriminate|].
    rewrite Hall. apply Bool.eqb_prop in Eb. subst b.
    by rewrite Bool.eqb_reflx.
  - constructor; [|done]. split; simpl; [discriminate|].
    by rewrite Bool.eqb_reflx.
Qed.

Lemma maximal_runs_alternate (s : string) : alternating (maximal_runs cls s).
Proof.
  induction s as [|c s IH]; simpl; [done|].
  destruct (maximal_runs cls s) as [|[b r] rest] eqn:E; [done|].
  destruct (Bool.eqb b (cls c)) eqn:Eb.
  - exact IH.
  - split; [|exact IH]. destruct b, (cls c); simpl in Eb; congruence.
Qed.

End Runs.

Lemma lower_char_spec (c : ascii) : Str.lower_char c = spec_lower_char c.
Proof. destruct c as [[] [] [] [] [] [] [] []]; reflexivity. Qed.

Lemma lower_spec (s : string) : Str.lower s = spec_lower s.
Proof.
  induction s as [|c s IH]; [reflexivity|].
  cbn [Str.lower spec_lower]. by rewrite lower_char_spec, IH.
Qed.

Lemma not_allowed_regex_spec (c : ascii) :
  not_allowed_regex c = negb (spec_slug_class c).
Proof. destruct c as [[] [] [] [] [] [] [] []]; reflexivity. Qed.

Lemma maximal_runs_ext (cls cls' : ascii -> bool) (s : string) :
  (forall c, cls c = cls' c) -> maximal_runs cls s = maximal_runs cls' s.
Proof.
  intros Hc. induction s as [|c s IH]; [reflexivity|].
  cbn [maximal_runs]. by rewrite IH, Hc.
Qed.

Lemma join_empty_fold (l : list string) :
  Str.join EmptyString l = fold_right String.append EmptyString l.
Proof.
  induction l as [|x l IH]; [reflexivity|].
  rewrite join_empty_cons, IH. reflexivity.
Qed.

(** C9.  The slug of [s] is [s] in lower case with every maximal run of
    characters outside [[a-z0-9_]] replaced by a single [.].  Lower case
    and the class are the specification's own here: capital Latin letters
    turned into the small ones, and the characters other than the
    thirty-seven listed.  The lowered string falls into runs that are
    non-empty, each inside or outside the class, neighbours on different
    sides; the slug is their concatenation with each run outside the class
    turned into [.]. *)
Theorem slugify_replaces_maximal_runs (s : string) :
  let lowered := spec_lower s in
  let outside c := negb (spec_slug_class c) in
  let runs := maximal_runs outside lowered in
  fold_right String.append EmptyString (map snd runs) = lowered
  /\ Forall (is_run outside) runs
  /\ alternating runs
  /\ slugify s
     = fold_right String.append EmptyString
         (map (fun '(out, run) => if out : bool then "." else run) runs).
Proof.
  cbv zeta. split; [by rewrite <- join_empty_fold, maximal_runs_concat|].
  split; [apply maximal_runs_are_runs|].
  split; [apply maximal_runs_alternate|].
  unfold slugify. rewrite (proj1 (sub_scan_spec _ _ _)). unfold replace_runs.
  rewrite join_empty_fold, lower_spec.
  by rewrite (maximal_runs_ext _ _ _ not_allowed_regex_spec).
Qed.

(** ** [none_on_exception] (C10, C1) *)

Lemma func_is_unbound (locals : list pyval) (kwargs : list (string * pyval)) :
  load_name [("args", VTuple locals); ("kwargs", VDict kwargs)] "func"
  = Raise (NameError "func").
Proof. reflexivity. Qed.

(** C10.  Whatever its arguments, [none_on_exception] returns [None]: the
    name [func] of its body is bound nowhere, the lookup raises and the bare
    [except] answers [None].  Hence the second strategy of the version
    resolver, the lookup of the nearest tag, yields [None] in every state. *)
Theorem none_on_exception_returns_None :
  (forall args kwargs, none_on_exception args kwargs = VNone)
  /\ (forall st : State,
        exists strategy,
          _starting_version_strategies !! 1%nat = Some strategy
          /\ strategy st = (st, Ok None)).
Proof.
  split; [reflexivity|].
  intros st. eexists. split; [reflexivity|]. reflexivity.
Qed.

(** C1, at a repository whose history reaches the tag
    [hybris-mobian/bullseye/1.2.3]: the lookup of the nearest tag, run on its
    own, finds the version [1.2.3], yet with no tag supplied the resolver
    settles on the default [0.0.0]. *)
Theorem version_misses_the_nearest_tag :
  describe_lambda_body (VRepo Sample.tagged) (VStr "hybris-mobian/") = Ok (VStr "1.2.3")
  /\ tag (Sample.package Sample.tagged Sample.hash3) = None
  /\ snd (version (Sample.start Sample.tagged Sample.hash3 Sample.packaged))
     = Ok "0.0.0+git20200103120000.c3c3c3c.release".
Proof. repeat split; vm_compute; reflexivity. Qed.

(** ** The release (C6) *)

Lemma index_0_split (sep : ascii) (s : string) :
  exists first rest,
    Str.split sep s = first :: rest /\ Str.index (Str.split sep s) 0 = Ok first.
Proof.
  destruct (Str.split sep s) as [|first rest] eqn:E.
  - by destruct (split_not_nil sep s).
  - by exists first, rest.
Qed.

(** C6, as the code has it.  On a package as [__init__] leaves it: with a
    tag, the release is the first segment of the tag with every occurrence
    of the tag prefix taken out of it, as [replace] does; without a tag and
    with a branch, the first segment of the branch with every occurrence of
    the branch prefix taken out; with neither, the property raises, and only
    then.  Where the prefix heads the name and occurs nowhere else in it,
    that is the name with its prefix stripped. *)
Theorem release_resolution (repo : Git.Repo) (rev : string)
    (tag branch : option string) (tag_prefix branch_prefix text : string)
    (w : World) :
  let st := {| self := SlimPackage_init repo rev tag tag_prefix
                         branch branch_prefix text;
               world := w |} in
  match tag, branch with
  | Some t, _ =>
      exists first more,
        Str.split "/" (Str.replace tag_prefix EmptyString t) = first :: more
        /\ snd (release st) = Ok first
  | None, Some b =>
      exists first more,
        Str.split "/" (Str.replace branch_prefix EmptyString b) = first :: more
        /\ snd (release st) = Ok first
  | None, None =>
      snd (release st)
      = Raise (Exception "At least one between tag and branch must be specified")
  end
  /\ ((exists e, snd (release st) = Raise e) <-> tag = None /\ branch = None)
  /\ (forall rest,
        tag = Some (tag_prefix +:+ rest) -> ~ Str.occurs tag_prefix rest ->
        exists first more,
          Str.split "/" rest = first :: more /\ snd (release st) = Ok first)
  /\ (forall rest,
        tag = None -> branch = Some (branch_prefix +:+ rest) ->
        ~ Str.occurs branch_prefix rest ->
        exists first more,
          Str.split "/" rest = first :: more /\ snd (release st) = Ok first).
Proof.
  cbv zeta.
  set (st := {| self := SlimPackage_init repo rev tag tag_prefix
                          branch branch_prefix text;
                world := w |}).
  assert (Hmain :
    match tag, branch with
    | Some t, _ =>
        exists first more,
          Str.split "/" (Str.replace tag_prefix EmptyString t) = first :: more
          /\ snd (release st) = Ok first
    | None, Some b =>
        exists first more,
          Str.split "/" (Str.replace branch_prefix EmptyString b) = first :: more
          /\ snd (release st) = Ok first
    | None, None =>
        snd (release st)
        = Raise (Exception "At least one between tag and branch must be specified")
    end).
  { unfold release, bind, gets, lift, modify_self, ret, raise. simpl.
    destruct tag as [t|]; [|destruct branch as [b|]].
    - destruct (index_0_split "/" (Str.replace tag_prefix EmptyString t))
        as (first & more & Hs & Hi).
      rewrite Hi. by exists first, more.
    - destruct (index_0_split "/" (Str.replace branch_prefix EmptyString b))
        as (first & more & Hs & Hi).
      rewrite Hi. by exists first, more.
    - reflexivity. }
  split; [exact Hmain|]. split; [|split].
  - destruct tag as [t|]; [|destruct branch as [b|]].
    + destruct Hmain as (first & more & _ & ->).
      split; [intros [e He]; discriminate|intros [? _]; discriminate].
    + destruct Hmain as (first & more & _ & ->).
      split; [intros [e He]; discriminate|intros [_ ?]; discriminate].
    + rewrite Hmain. split; [done|]. intros _. by eexists.
  - intros rest -> Hno. by rewrite replace_strips_prefix in Hmain.
  - intros rest -> -> Hno. by rewrite replace_strips_prefix in Hmain.
Qed.

(** The release of the tag [hybris-mobian/bullseye/1.2.3]. *)
Lemma release_resolution_witness :
  snd (release {| self := SlimPackage_init Sample.tagged Sample.hash3
                            (Some "hybris-mobian/bullseye/1.2.3") "hybris-mobian/"
                            None "feature/" "release";
                  world := Sample.packaged |})
  = Ok "bullseye".
Proof.
  destruct (release_resolution Sample.tagged Sample.hash3
              (Some "hybris-mobian/bullseye/1.2.3") None
              "hybris-mobian/" "feature/" "release" Sample.packaged)
    as [(first & more & Hs & Hr) _].
  vm_compute in Hs. injection Hs as <- _. exact Hr.
Defined.

(** C6 as the documentation words it fails where the prefix occurs a second
    time, or not at the head: the tag [hybris-mobian/hybris-mobian/1.0] with
    its prefix stripped is [hybris-mobian/1.0], whose first segment is
    [hybris-mobian], yet the release is [1.0]; the branch [hotfeature/x]
    does not start with the prefix [feature/], its first segment is
    [hotfeature], yet the release is [hotx]. *)
Lemma release_resolution_counterexample :
  let tagged :=
    {| self := SlimPackage_init Sample.tagged Sample.hash3
                 (Some "hybris-mobian/hybris-mobian/1.0") "hybris-mobian/"
                 None "feature/" "release";
       world := Sample.packaged |} in
  let branched :=
    {| self := SlimPackage_init Sample.tagged Sample.hash3
                 None "hybris-mobian/"
                 (Some "hotfeature/x") "feature/" "release";
       world := Sample.packaged |} in
  Str.split "/" (spec_strip_prefix "hybris-mobian/" "hybris-mobian/hybris-mobian/1.0")
  = ["hybris-mobian"; "1.0"]
  /\ snd (release tagged) = Ok "1.0"
  /\ snd (release tagged) <> Ok "hybris-mobian"
  /\ Str.split "/" (spec_strip_prefix "feature/" "hotfeature/x") = ["hotfeature"; "x"]
  /\ snd (release branched) = Ok "hotx"
  /\ snd (release branched) <> Ok "hotfeature".
Proof. cbv zeta. repeat split; try (vm_compute; reflexivity); vm_compute; discriminate. Qed.

(** ** The version (C3) *)

(** C3, as the code has it.  On a package as [__init__] leaves it, whose
    commit is found: when the strategies resolve the base version [base], the
    version is [base], [+git], the committed time of the commit formatted
    with [%Y%m%d%H%M%S], a dot, the first seven characters of the commit
    hash, a dot, and the slug of the comment without the branch prefix. *)
Theorem version_format `{DateTime} (repo : Git.Repo) (rev : string)
    (tag branch : option string) (tag_prefix branch_prefix text : string)
    (w : World) (st' : State) (base : string) (c : Git.Commit) :
  let st := {| self := SlimPackage_init repo rev tag tag_prefix
                         branch branch_prefix text;
               world := w |} in
  first_not_none _starting_version_strategies None st = (st', Ok (Some base)) ->
  Git.commit repo rev = Ok c ->
  snd (version st)
  = Ok (base +:+ "+git"
        +:+ strftime (fromtimestamp (Git.committed_date c)) "%Y%m%d%H%M%S"
        +:+ "." +:+ Str.slice_to 7 rev
        +:+ "." +:+ slugify (Str.replace branch_prefix EmptyString text)).
Proof.
  cbv zeta. intros Hbase Hcommit.
  unfold version. unfold bind at 1. unfold gets at 1. cbn [self _version SlimPackage_init].
  unfold bind at 1. rewrite Hbase.
  unfold bind, lift, modify_self, ret.
  cbn [self git_repository commit_hash SlimPackage_init].
  rewrite Hcommit. reflexivity.
Qed.

(** The version of a lone root commit. *)
Lemma version_format_witness :
  snd (version (Sample.start Sample.root_only Sample.hash1 Sample.packaged))
  = Ok "0.0.0+git20200101120000.a1a1a1a.release".
Proof.
  apply (version_format (H := utc_calendar) Sample.root_only Sample.hash1
           None (Some "master") "hybris-mobian/" "feature/" "release"
           Sample.packaged
           (Sample.start Sample.root_only Sample.hash1 Sample.packaged)
           "0.0.0" Sample.c1).
  - vm_compute. reflexivity.
  - vm_compute. reflexivity.
Defined.

(** C3 as it is worded fails: for the lone root commit, without tags or an
    earlier changelog and with the comment [release], a dot stands between
    the time stamp and the short hash. *)
Lemma version_format_counterexample :
  snd (version (Sample.start Sample.root_only Sample.hash1 Sample.packaged))
  = Ok "0.0.0+git20200101120000.a1a1a1a.release"
  /\ spec_full_version "0.0.0"
       (strftime (fromtimestamp (Git.committed_date Sample.c1)) "%Y%m%d%H%M%S")
       Sample.hash1 "release"
     = "0.0.0+git20200101120000a1a1a1a.release"
  /\ snd (version (Sample.start Sample.root_only Sample.hash1 Sample.packaged))
     <> Ok (spec_full_version "0.0.0"
              (strftime (fromtimestamp (Git.committed_date Sample.c1)) "%Y%m%d%H%M%S")
              Sample.hash1 "release").
Proof.
  split; [vm_compute; reflexivity|].
  split; [vm_compute; reflexivity|].
  vm_compute. intros Heq. discriminate Heq.
Qed.

(** ** Ordered dictionaries *)

Lemma keys_setdefault_insert0 (d : list (string * list string)) (key item : string) :
  map fst (setdefault_insert0 d key item)
  = if mem key (map fst d) then map fst d else map fst d ++ [key].
Proof.
  unfold mem. induction d as [|[k l] d IH]; simpl; [reflexivity|].
  rewrite (String.eqb_sym key k). destruct (String.eqb k key); simpl; [reflexivity|].
  rewrite IH. by destruct (existsb (String.eqb key) (map fst d)).
Qed.

Lemma dict_get_setdefault_insert0 (d : list (string * list string))
    (key item key' : string) :
  dict_get (setdefault_insert0 d key item) key'
  = if String.eqb key key'
    then Some (item :: default [] (dict_get d key'))
    else dict_get d key'.
Proof.
  induction d as [|[k l] d IH]; simpl.
  - by destruct (String.eqb key key').
  - destruct (String.eqb k key) eqn:Ek; simpl.
    + apply String.eqb_eq in Ek. subst k.
      by destruct (String.eqb key key').
    + rewrite IH. destruct (String.eqb key key') eqn:Ek'; [|reflexivity].
      apply String.eqb_eq in Ek'. subst key'. by rewrite Ek.
Qed.

Lemma filter_filter_and {A} (p q : A -> bool) (l : list A) :
  List.filter p (List.filter q l) = List.filter (fun x => q x && p x) l.
Proof.
  induction l as [|x l IH]; simpl; [reflexivity|].
  destruct (q x); simpl; [|exact IH]. destruct (p x); by rewrite IH.
Qed.

Lemma mem_app (key : string) (l1 l2 : list string) :
  mem key (l1 ++ l2) = mem key l1 || mem key l2.
Proof. apply existsb_app. Qed.

Section Entries.

Context `{DateTime}.

Lemma foldl_add_commit_fields (seg : list Git.Commit) (e : changelog_entry) :
  author (foldl add_commit e seg) = author e
  /\ mail (foldl add_commit e seg) = mail e
  /\ date (foldl add_commit e seg) = date e.
Proof.
  revert e. induction seg as [|c seg IH]; intros e; simpl; [done|].
  destruct (IH (add_commit e c)) as (-> & -> & ->). done.
Qed.

(** The authors of an entry stand in the order in which the walk first met
    them. *)
Lemma keys_foldl_add_commit (seg : list Git.Commit) (e : changelog_entry) :
  map fst (contents (foldl add_commit e seg))
  = map fst (contents e)
    ++ List.filter (fun a => negb (mem a (map fst (contents e))))
         (first_seen (map author_name seg)).
Proof.
  revert e. induction seg as [|c seg IH]; intros e; simpl.
  { by rewrite app_nil_r. }
  rewrite IH. cbn [add_commit contents]. rewrite keys_setdefault_insert0.
  fold (author_name c).
  destruct (mem (author_name c) (map fst (contents e))) eqn:Em; simpl.
  - f_equal. rewrite filter_filter_and. apply List.filter_ext. intros a.
    destruct (String.eqb (author_name c) a) eqn:Ea; simpl; [|reflexivity].
    apply String.eqb_eq in Ea. subst a. by rewrite Em.
  - rewrite <- app_assoc. simpl. do 2 f_equal.
    rewrite filter_filter_and. apply List.filter_ext. intros a.
    rewrite mem_app. simpl. rewrite orb_false_r.
    rewrite (String.eqb_sym a). 
    destruct (String.eqb (author_name c) a), (mem a (map fst (contents e))); reflexivity.
Qed.

(** The messages of an author stand in the reverse of the order in which the
    walk met them. *)
Lemma dict_get_foldl_add_commit (seg : list Git.Commit) (e : changelog_entry)
    (a : string) :
  default [] (dict_get (contents (foldl add_commit e seg)) a)
  = rev (messages_of a seg) ++ default [] (dict_get (contents e) a).
Proof.
  unfold messages_of.
  revert e. induction seg as [|c seg IH]; intros e; simpl; [reflexivity|].
  rewrite IH. cbn [add_commit contents]. rewrite dict_get_setdefault_insert0.
  fold (author_name c).
  destruct (String.eqb (author_name c) a); simpl; [|reflexivity].
  by rewrite <- app_assoc.
Qed.

Lemma dict_get_is_Some (d : list (string * list string)) (a : string) :
  mem a (map fst d) = true -> exists l, dict_get d a = Some l.
Proof.
  unfold mem. induction d as [|[k l] d IH]; simpl; [discriminate|].
  rewrite (String.eqb_sym a k). destruct (String.eqb k a); [by eexists|].
  simpl. exact IH.
Qed.

Lemma filter_all {A} (p : A -> bool) (l : list A) :
  (forall x, p x = true) -> List.filter p l = l.
Proof.
  intros Hp. induction l as [|x l IH]; simpl; [reflexivity|].
  by rewrite Hp, IH.
Qed.

Lemma entry_of_keys (c : Git.Commit) (seg : list Git.Commit) (e : changelog_entry) :
  entry_of (c :: seg) = Some e ->
  map fst (contents e) = first_seen (map author_name (c :: seg)).
Proof.
  intros [= <-]. rewrite keys_foldl_add_commit.
  cbn [add_commit new_entry contents setdefault_insert0 map fst app first_seen].
  fold (author_name c). f_equal. apply List.filter_ext. intros a.
  unfold mem. simpl. by rewrite orb_false_r, String.eqb_sym.
Qed.

Lemma entry_of_messages (seg : list Git.Commit) (e : changelog_entry)
    (a : string) (ms : list string) :
  entry_of seg = Some e ->
  dict_get (contents e) a = Some ms ->
  ms = rev (messages_of a seg).
Proof.
  destruct seg as [|c seg]; [discriminate|]. intros [= <-] Hget.
  pose proof (dict_get_foldl_add_commit (c :: seg) (new_entry c) a) as Hm.
  cbn [foldl] in Hget, Hm. rewrite Hget in Hm.
  cbn [new_entry contents dict_get default] in Hm. by rewrite app_nil_r in Hm.
Qed.

End Entries.

(** ** The body of a stanza (C7) *)



(** ** The walk *)

Lemma yielded_GYield {Y} (st : State) (y : Y) (resume : State -> Gen Y) :
  yielded (GYield st y resume) = y :: yielded (resume st).
Proof.
  unfold yielded. simpl. by destruct (collect (resume st)) as [[st' ys] e].
Qed.

Lemma outcome_GYield {Y} (st : State) (y : Y) (resume : State -> Gen Y) :
  outcome (GYield st y resume) = outcome (resume st).
Proof.
  unfold outcome. simpl. by destruct (collect (resume st)) as [[st' ys] e].
Qed.

Lemma final_state_GYield {Y} (st : State) (y : Y) (resume : State -> Gen Y) :
  final_state (GYield st y resume) = final_state (resume st).
Proof.
  unfold final_state. simpl. by destruct (collect (resume st)) as [[st' ys] e].
Qed.

Lemma collect_parts {Y} (g : Gen Y) :
  collect g = (final_state g, yielded g, outcome g).
Proof.
  unfold final_state, yielded, outcome. by destruct (collect g) as [[st ys] e].
Qed.

Lemma infix_refl_app {A} (seg after : list A) : infix seg (seg ++ after).
Proof. by exists [], after. Qed.

Lemma infix_app_l {A} (seg l before : list A) : infix seg l -> infix seg (before ++ l).
Proof.
  intros (b & a & ->). exists (before ++ b), a. by rewrite <- app_assoc.
Qed.

Section Walk.

Context `{DateTime}.

Lemma entry_of_snoc (cur : list Git.Commit) (c : Git.Commit) :
  Some (add_commit (default (new_entry c) (entry_of cur)) c) = entry_of (cur ++ [c]).
Proof.
  destruct cur as [|c0 cur]; [reflexivity|].
  change ((c0 :: cur) ++ [c]) with (c0 :: (cur ++ [c])).
  unfold entry_of. simpl. by rewrite foldl_app.
Qed.

Lemma entry_of_singleton (c : Git.Commit) :
  Some (add_commit (default (new_entry c) None) c) = entry_of [c].
Proof. reflexivity. Qed.

(** *** The name is read once *)

Lemma name_cached (st : State) (n : string) :
  _name (self st) = Some n -> name st = (st, Ok n).
Proof. intros Hn. unfold name, bind, gets. by rewrite Hn. Qed.

Lemma name_Ok (st st' : State) (n : string) :
  name st = (st', Ok n) -> _name (self st') = Some n.
Proof.
  unfold name, bind, gets, lift, modify_self, ret, raise.
  destruct (_name (self st)) as [n0|] eqn:Hn; [by intros [= <- <-]|].
  destruct (os_path_exists _ _); [|discriminate].
  destruct (open_read _ _); [|discriminate].
  destruct (List.find _ _); [|discriminate].
  destruct (Str.index_last _); [|discriminate].
  by intros [= <- <-].
Qed.

Lemma name_Raise (st st' : State) (e : exn) :
  name st = (st', Raise e) -> st' = st.
Proof.
  unfold name, bind, gets, lift, modify_self, ret, raise.
  destruct (_name (self st)) as [n0|] eqn:Hn; [discriminate|].
  destruct (os_path_exists _ _); [|by intros [= <-]].
  destruct (open_read _ _); [|by intros [= <-]].
  destruct (List.find _ _); [|by intros [= <-]].
  destruct (Str.index_last _); [discriminate|by intros [= <-]].
Qed.

Section Fmt.

Context {Y : Type} (fmt : string -> string -> string -> changelog_entry -> Y).
Variable tags : gmap string string.
Variable h : string.

Lemma walk_not_boundary (c : Git.Commit) (rest : list Git.Commit)
    (nv : string) (entry : option changelog_entry) (st : State) :
  is_boundary tags h c = false ->
  walk fmt tags h (c :: rest) nv entry st
  = walk fmt tags h rest nv
      (Some (add_commit (default (new_entry c) entry) c)) st.
Proof. intros Hb. cbn [walk]. by rewrite Hb. Qed.

(** Commits that are no boundary are added to the entry in progress. *)
Lemma walk_skip (seg rest cur : list Git.Commit) (nv : string) (st : State) :
  Forall (fun c => is_boundary tags h c = false) seg ->
  walk fmt tags h (seg ++ rest) nv (entry_of cur) st
  = walk fmt tags h rest nv (entry_of (cur ++ seg)) st.
Proof.
  intros Hseg. revert cur.
  induction Hseg as [|c seg Hc _ IH]; intros cur; simpl app.
  { by rewrite app_nil_r. }
  rewrite walk_not_boundary by done.
  rewrite entry_of_snoc, IH. by rewrite <- app_assoc.
Qed.

(** A boundary closes the entry in progress: the stanza is yielded under
    the version tracked so far. *)
Lemma walk_boundary (c : Git.Commit) (rest : list Git.Commit)
    (nv release version : string) (entry : option changelog_entry)
    (e : changelog_entry) (st st' : State) (n : string) :
  is_boundary tags h c = true ->
  Str.split "/" nv = [release; version] ->
  (if bool_decide (Git.parents c = [])
   then Some (add_commit (default (new_entry c) entry) c) else entry) = Some e ->
  name st = (st', Ok n) ->
  walk fmt tags h (c :: rest) nv entry st
  = GYield st' (fmt n version release e)
      (fun st'' =>
         if bool_decide (Git.parents c = [])
         then walk fmt tags h rest nv (entry_of [c]) st''
         else match tags !! Git.hexsha c with
              | Some v => walk fmt tags h rest v (entry_of [c]) st''
              | None => GRaise st'' (KeyError (Git.hexsha c))
              end).
Proof.
  intros Hb Hs He Hn. cbn [walk]. rewrite Hb, Hs. cbn [unpack2].
  rewrite He, Hn. reflexivity.
Qed.

(** Without a package name nothing is ever yielded. *)
Lemma walk_boundary_no_name (c : Git.Commit) (rest : list Git.Commit)
    (nv release version : string) (entry : option changelog_entry)
    (e : changelog_entry) (st : State) (ex : exn) :
  is_boundary tags h c = true ->
  Str.split "/" nv = [release; version] ->
  (if bool_decide (Git.parents c = [])
   then Some (add_commit (default (new_entry c) entry) c) else entry) = Some e ->
  name st = (st, Raise ex) ->
  walk fmt tags h (c :: rest) nv entry st = GRaise st ex.
Proof.
  intros Hb Hs He Hn. cbn [walk]. rewrite Hb, Hs. cbn [unpack2].
  rewrite He, Hn. reflexivity.
Qed.

End Fmt.

(** Every entry that is yielded is the entry of a run of consecutive
    commits of the walk. *)
Lemma walk_yields_segments (tags : gmap string string) (h : string)
    (rest : list Git.Commit) :
  forall (cur : list Git.Commit) (nv : string) (st : State) n v r e,
    (n, v, r, e) ∈ yielded (walk (fun n v r e => (n, v, r, e)) tags h rest nv
                              (entry_of cur) st) ->
    exists seg, infix seg (cur ++ rest) /\ entry_of seg = Some e.
Proof.
  induction rest as [|c rest IH]; intros cur nv st n v r e Hin.
  { cbn in Hin. by apply elem_of_nil in Hin. }
  destruct (is_boundary tags h c) eqn:Hb.
  - cbn [walk] in Hin. rewrite Hb in Hin.
    destruct (unpack2 (Str.split "/" nv)) as [[release version]|ex];
      [|by apply elem_of_nil in Hin].
    assert (Hrest : forall st' nv',
               (n, v, r, e) ∈ yielded (walk (fun n v r e => (n, v, r, e)) tags h rest nv'
                                         (entry_of [c]) st') ->
               exists seg, infix seg (cur ++ c :: rest) /\ entry_of seg = Some e).
    { intros st' nv' Hin'. destruct (IH [c] nv' st' n v r e Hin') as (seg & Hseg & He).
      exists seg. split; [|done]. by apply infix_app_l. }
    destruct (bool_decide (Git.parents c = [])) eqn:Hroot.
    + destruct (name st) as [st' [n'|ex]]; [|by apply elem_of_nil in Hin].
      rewrite yielded_GYield in Hin. apply elem_of_cons in Hin as [Heq|Hin].
      * injection Heq as -> -> -> ->. exists (cur ++ [c]). split.
        { replace (cur ++ c :: rest) with ((cur ++ [c]) ++ rest)
            by (by rewrite <- app_assoc).
          apply infix_refl_app. }
        symmetry. apply entry_of_snoc.
      * eapply Hrest. exact Hin.
    + destruct (entry_of cur) as [e0|] eqn:Hcur; [|by apply elem_of_nil in Hin].
      destruct (name st) as [st' [n'|ex]]; [|by apply elem_of_nil in Hin].
      rewrite yielded_GYield in Hin. apply elem_of_cons in Hin as [Heq|Hin].
      * injection Heq as -> -> -> ->. exists cur. split; [apply infix_refl_app|done].
      * destruct (tags !! Git.hexsha c) as [tv|]; [|by apply elem_of_nil in Hin].
        eapply Hrest. exact Hin.
  - rewrite walk_not_boundary in Hin by done. rewrite entry_of_snoc in Hin.
    destruct (IH _ _ _ _ _ _ _ Hin) as (seg & Hseg & He).
    exists seg. split; [|done]. by rewrite <- app_assoc in Hseg.
Qed.

(** The stanzas are the yielded entries, each put into the template. *)
Lemma collect_walk_fmt {Y} (fmt : string -> string -> string -> changelog_entry -> Y)
    (tags : gmap string string) (h : string) (commits : list Git.Commit) :
  forall (nv : string) (entry : option changelog_entry) (st : State),
    collect (walk fmt tags h commits nv entry st)
    = let '(st', ys, ex) :=
        collect (walk (fun n v r e => (n, v, r, e)) tags h commits nv entry st) in
      (st', map (fun '(n, v, r, e) => fmt n v r e) ys, ex).
Proof.
  induction commits as [|c rest IH]; intros nv entry st; [reflexivity|].
  cbn [walk]. destruct (is_boundary tags h c); [|apply IH].
  destruct (unpack2 _) as [[release version]|ex]; [|reflexivity].
  destruct (if bool_decide (Git.parents c = []) then _ else _) as [e|]; [|reflexivity].
  destruct (name st) as [st' [n|ex]]; [|reflexivity].
  cbn [collect]. destruct (bool_decide (Git.parents c = [])).
  - rewrite IH. by destruct (collect _) as [[st'' ys] ex].
  - destruct (tags !! Git.hexsha c) as [tv|]; [|reflexivity].
    rewrite IH. by destruct (collect _) as [[st'' ys] ex].
Qed.

End Walk.

(** ** What the properties do to the state *)

Lemma same_object_refl (p : SlimPackage) : same_object p p.
Proof. by repeat split. Qed.

Lemma same_object_trans (p q r : SlimPackage) :
  same_object p q -> same_object q r -> same_object p r.
Proof.
  unfold same_object. intros (-> & -> & -> & -> & -> & -> & ->). done.
Qed.

Lemma release_state (st st' : State) (r : result string) :
  release st = (st', r) ->
  world st' = world st /\ same_object (self st') (self st)
  /\ _name (self st') = _name (self st)
  /\ _version (self st') = _version (self st).
Proof.
  unfold release, bind, gets, lift, modify_self, ret, raise.
  destruct (truthy (_release (self st))) as [r0|].
  { intros [= <- _]. by repeat split. }
  destruct (tag (self st)) as [t|]; [|destruct (branch (self st)) as [b|]].
  - destruct (Str.index _ _); intros [= <- _]; by repeat split.
  - destruct (Str.index _ _); intros [= <- _]; by repeat split.
  - intros [= <- _]. by repeat split.
Qed.

Lemma strategies_keep_state (st st' : State) (r : result (option string)) :
  first_not_none _starting_version_strategies None st = (st', r) -> st' = st.
Proof.
  unfold _starting_version_strategies, first_not_none, get_version_from_changelog,
    bind, gets, lift, ret.
  change (none_on_exception _ _) with VNone. cbv iota.
  destruct (tag (self st)) as [t|].
  { destruct (Str.index_last _); by intros [= <- _]. }
  destruct (os_path_exists _ _); [|by intros [= <- _]].
  destruct (open_read _ _); [|by intros [= <- _]].
  destruct (try_except _ _) as [[v|]|]; by intros [= <- _].
Qed.

Section VersionState.

Context `{DateTime}.

Lemma version_state (st st' : State) (r : result string) :
  version st = (st', r) ->
  world st' = world st /\ same_object (self st') (self st)
  /\ _name (self st') = _name (self st)
  /\ _release (self st') = _release (self st).
Proof.
  unfold version. unfold bind at 1. unfold gets at 1.
  destruct (_version (self st)) as [v0|].
  { intros [= <- _]. by repeat split. }
  unfold bind at 1.
  destruct (first_not_none _ _ st) as [st0 [sv|e]] eqn:Hs;
    apply strategies_keep_state in Hs; subst st0.
  - unfold bind, lift, modify_self, ret.
    destruct (Git.commit _ _); intros [= <- _]; by repeat split.
  - intros [= <- _]. by repeat split.
Qed.

Lemma version_Ok (st st' : State) (v : string) :
  version st = (st', Ok v) -> _version (self st') = Some v.
Proof.
  unfold version. unfold bind at 1. unfold gets at 1.
  destruct (_version (self st)) as [v0|] eqn:Hv.
  { by intros [= <- <-]. }
  unfold bind at 1.
  destruct (first_not_none _ _ st) as [st0 [sv|e]]; [|discriminate].
  unfold bind, lift, modify_self, ret.
  destruct (Git.commit _ _); [|discriminate]. by intros [= <- <-].
Qed.

Lemma version_cached (st : State) (v : string) :
  _version (self st) = Some v -> version st = (st, Ok v).
Proof. intros Hv. unfold version, bind, gets. by rewrite Hv. Qed.

End VersionState.

(** ** The order of the messages (C8) *)

Section Changelog.

Context `{DateTime}.

Lemma iter_changelog_with_walk {Y}
    (fmt : string -> string -> string -> changelog_entry -> Y)
    (st st1 st2 : State) (r v : string) (commits : list Git.Commit) :
  release st = (st1, Ok r) ->
  version st1 = (st2, Ok v) ->
  Git.iter_commits (git_repository (self st)) (commit_hash (self st)) = Ok commits ->
  iter_changelog_with fmt st
  = walk fmt (build_tags (tag_prefix (self st)) (Git.tags (git_repository (self st))))
      (commit_hash (self st)) commits (r +:+ "/" +:+ v) None st2.
Proof.
  intros Hr Hv Hc. unfold iter_changelog_with. rewrite Hr, Hv.
  apply release_state in Hr as (_ & (Hrepo1 & Hhash1 & _) & _).
  apply version_state in Hv as (_ & (Hrepo2 & Hhash2 & _) & _).
  rewrite Hrepo2, Hrepo1, Hhash2, Hhash1, Hc. reflexivity.
Qed.

Lemma yielded_iter_entries_segments (st : State) (commits : list Git.Commit)
    n v r e :
  Git.iter_commits (git_repository (self st)) (commit_hash (self st)) = Ok commits ->
  (n, v, r, e) ∈ yielded (iter_entries st) ->
  exists seg, infix seg commits /\ entry_of seg = Some e.
Proof.
  intros Hc Hin. unfold iter_entries in Hin.
  destruct (release st) as [st1 [rel|ex]] eqn:Hr.
  2:{ unfold iter_changelog_with in Hin. rewrite Hr in Hin.
      by apply elem_of_nil in Hin. }
  destruct (version st1) as [st2 [ver|ex]] eqn:Hv.
  2:{ unfold iter_changelog_with in Hin. rewrite Hr, Hv in Hin.
      by apply elem_of_nil in Hin. }
  rewrite (iter_changelog_with_walk _ _ _ _ _ _ _ Hr Hv Hc) in Hin.
  change (@None changelog_entry) with (entry_of []) in Hin.
  exact (walk_yields_segments _ _ _ _ _ _ _ _ _ _ Hin).
Qed.

End Changelog.

(** C8.  Every entry that [iter_changelog] finalizes is built over a run of
    consecutive commits of the walk, which goes from the newest commit to the
    oldest; in it the messages of each author are the first message lines of
    that author's commits of the run in the reverse of the order of the walk:
    oldest first. *)
Theorem finalized_entries_oldest_first `{DateTime} (st : State)
    (commits : list Git.Commit) (n v r : string) (e : changelog_entry) :
  Git.iter_commits (git_repository (self st)) (commit_hash (self st)) = Ok commits ->
  (n, v, r, e) ∈ yielded (iter_entries st) ->
  exists seg,
    infix seg commits
    /\ entry_of seg = Some e
    /\ forall a ms, dict_get (contents e) a = Some ms -> ms = rev (messages_of a seg).
Proof.
  intros Hc Hin.
  destruct (yielded_iter_entries_segments st commits n v r e Hc Hin) as (seg & Hseg & He).
  exists seg. split; [done|]. split; [done|].
  intros a ms Hget. by eapply entry_of_messages.
Qed.

(** ** Sanitized versions (C4) *)

Lemma replace_char (a b : ascii) (s : string) :
  Str.replace (String a EmptyString) (String b EmptyString) s
  = (fix go (s : string) : string :=
       match s with
       | EmptyString => EmptyString
       | String c s' => String (if Ascii.eqb c a then b else c) (go s')
       end) s.
Proof.
  unfold Str.replace. induction s as [|c s IH]; [reflexivity|].
  cbn [Str.replace_scan String.prefix String.length Nat.sub].
  destruct (ascii_dec a c) as [<-|Hne].
  - rewrite Ascii.eqb_refl.
    replace (String.prefix EmptyString s) with true by (by destruct s).
    simpl. by rewrite IH.
  - destruct (Ascii.eqb c a) eqn:E; [apply Ascii.eqb_eq in E; congruence|].
    by rewrite IH.
Qed.

Lemma sanitize_tag_version_spec (v : string) :
  sanitize_tag_version v = spec_sanitize v.
Proof.
  unfold sanitize_tag_version. rewrite !replace_char.
  induction v as [|c v IH]; [reflexivity|].
  cbn [spec_sanitize]. rewrite <- IH. f_equal.
  unfold sanitize_char. destruct (Ascii.eqb c "_") eqn:E; [reflexivity|].
  reflexivity.
Qed.

Lemma spec_sanitize_clean (v : string) :
  Str.contains "_" (spec_sanitize v) = false
  /\ Str.contains "%" (spec_sanitize v) = false.
Proof.
  induction v as [|c v [IH1 IH2]]; [done|].
  cbn [spec_sanitize Str.contains]. rewrite IH1, IH2, !orb_false_r.
  unfold sanitize_char.
  destruct (Ascii.eqb c "_") eqn:E1; [done|].
  destruct (Ascii.eqb c "%") eqn:E2; [done|].
  by rewrite (Ascii.eqb_sym "_"), (Ascii.eqb_sym "%"), E1, E2.
Qed.

(** C4, as the code has it.  The stanzas that [iter_changelog] yields are its
    finalized entries put into the template, each with its version
    sanitized: every [_] of the version replaced by [~] and every [%] by
    [:], so that neither character is left in it. *)
Theorem stanza_versions_are_sanitized `{DateTime} (st : State) :
  yielded (iter_changelog st)
  = map (fun '(n, v, r, e) =>
           DEBIAN_CHANGELOG_TEMPLATE n (spec_sanitize v) r
             (render_content (contents e)) (author e) (mail e) (date e))
      (yielded (iter_entries st))
  /\ forall v, Str.contains "_" (spec_sanitize v) = false
            /\ Str.contains "%" (spec_sanitize v) = false.
Proof.
  split; [|apply spec_sanitize_clean].
  unfold iter_changelog, iter_entries, iter_changelog_with, yielded.
  destruct (release st) as [st1 [rel|ex]]; [|reflexivity].
  destruct (version st1) as [st2 [ver|ex]]; [|reflexivity].
  destruct (Git.iter_commits _ _) as [commits|ex]; [|reflexivity].
  rewrite collect_walk_fmt. destruct (collect _) as [[st' ys] ex]. simpl.
  apply map_ext. intros [[[n v] r] e]. unfold stanza_text.
  by rewrite sanitize_tag_version_spec.
Qed.

(** ** One tag, two stanzas (C5) *)

Lemma split_no_sep (sep : ascii) (s : string) :
  Str.contains sep s = false -> Str.split sep s = [s].
Proof.
  induction s as [|c s IH]; [reflexivity|].
  cbn [Str.contains Str.split]. rewrite (Ascii.eqb_sym sep c).
  destruct (Ascii.eqb c sep); simpl; [discriminate|].
  intros Hs. by rewrite (IH Hs).
Qed.

Lemma split_two (sep : ascii) (a b : string) :
  Str.contains sep a = false ->
  Str.contains sep b = false ->
  Str.split sep (a +:+ String sep b) = [a; b].
Proof.
  intros Ha Hb. induction a as [|c a IH].
  - cbn [String.append Str.split]. rewrite Ascii.eqb_refl. by rewrite split_no_sep.
  - cbn [Str.contains] in Ha. cbn [String.append Str.split].
    rewrite (Ascii.eqb_sym sep c) in Ha.
    destruct (Ascii.eqb c sep); simpl in Ha; [discriminate|].
    by rewrite (IH Ha).
Qed.

Lemma build_tags_filter (prefix : string) (l : list Git.TagReference) :
  build_tags prefix l
  = build_tags prefix
      (List.filter (fun t => Str.startswith prefix (Git.tag_name t)) l).
Proof.
  unfold build_tags. generalize (∅ : gmap string string).
  induction l as [|t l IH]; intros acc; [reflexivity|].
  cbn [foldl List.filter].
  destruct (Str.startswith prefix (Git.tag_name t)) eqn:E; cbn [foldl].
  - rewrite E. apply IH.
  - apply IH.
Qed.

Lemma build_tags_one (prefix : string) (l : list Git.TagReference)
    (T : Git.TagReference) :
  List.filter (fun t => Str.startswith prefix (Git.tag_name t)) l = [T] ->
  build_tags prefix l
  = {[ Git.tag_commit T := Str.replace prefix EmptyString (Git.tag_name T) ]}.
Proof.
  intros Hf. rewrite build_tags_filter, Hf.
  assert (Hin : In T (List.filter (fun t => Str.startswith prefix (Git.tag_name t)) l))
    by (rewrite Hf; by left).
  apply filter_In in Hin as [_ HT].
  unfold build_tags. cbn [foldl]. rewrite HT. apply insert_empty.
Qed.

Section OneTag.

Context `{DateTime}.

Lemma not_boundary_one_tag (key v h : string) (c : Git.Commit) :
  Git.parents c <> [] -> Git.hexsha c <> key ->
  is_boundary {[ key := v ]} h c = false.
Proof.
  intros Hp Hk. unfold is_boundary.
  rewrite lookup_singleton_ne by done.
  rewrite (bool_decide_eq_false_2 (is_Some None)) by (by intros [? ?]).
  by rewrite bool_decide_eq_false_2.
Qed.

Lemma boundary_tagged (key v h : string) (c : Git.Commit) :
  Git.hexsha c = key -> key <> h -> is_boundary {[ key := v ]} h c = true.
Proof.
  intros <- Hh. unfold is_boundary. rewrite lookup_singleton_eq.
  rewrite bool_decide_eq_true_2 by by eexists.
  destruct (String.eqb_spec (Git.hexsha c) h); [done|reflexivity].
Qed.

Lemma boundary_root (tags : gmap string string) (h : string) (c : Git.Commit) :
  Git.parents c = [] -> is_boundary tags h c = true.
Proof.
  intros Hp. unfold is_boundary.
  rewrite (bool_decide_eq_true_2 (Git.parents c = [])) by done.
  apply orb_true_r.
Qed.

End OneTag.

(** C5, as the code has it.  The history is the commits [after], the tagged
    commit [ct], the commits [before] and the root, newest first; [T], on
    [ct], is the only tag with the prefix, and without the prefix its name
    is [trel/tver].  When the release, the version (free of [/]) and the
    package name resolve, [iter_changelog] yields exactly two stanzas and
    ends: first the commits after the tag under the version of the package,
    then the tagged commit and all before it, down to the root, under
    [tver]. *)
Theorem one_tag_two_stanzas `{DateTime} (st st1 st2 st3 : State)
    (T : Git.TagReference) (after before : list Git.Commit) (ct root : Git.Commit)
    (rel ver nm trel tver : string) :
  List.filter (fun t => Str.startswith (tag_prefix (self st)) (Git.tag_name t))
    (Git.tags (git_repository (self st))) = [T] ->
  Git.tag_commit T = Git.hexsha ct ->
  Str.split "/" (Str.replace (tag_prefix (self st)) EmptyString (Git.tag_name T))
  = [trel; tver] ->
  Git.iter_commits (git_repository (self st)) (commit_hash (self st))
  = Ok (after ++ ct :: before ++ [root]) ->
  after <> [] ->
  Forall (fun c => Git.parents c <> [] /\ Git.hexsha c <> Git.hexsha ct)
    (after ++ before) ->
  Git.parents ct <> [] ->
  Git.hexsha ct <> commit_hash (self st) ->
  Git.parents root = [] ->
  release st = (st1, Ok rel) ->
  Str.contains "/" rel = false ->
  version st1 = (st2, Ok ver) ->
  Str.contains "/" ver = false ->
  name st2 = (st3, Ok nm) ->
  exists e1 e2,
    entry_of after = Some e1
    /\ entry_of (ct :: before ++ [root]) = Some e2
    /\ collect (iter_changelog st)
       = (st3, [stanza_text nm ver rel e1; stanza_text nm tver trel e2], None).
Proof.
  intros HT HTc HTn Hlog Hafter Hplain Hct Hh Hroot Hrel Hrel' Hver Hver' Hname.
  destruct (entry_of after) as [e1|] eqn:He1; [|by destruct after].
  destruct (entry_of (ct :: before ++ [root])) as [e2|] eqn:He2; [|done].
  exists e1, e2. split; [done|]. split; [done|].
  unfold iter_changelog.
  rewrite (iter_changelog_with_walk _ _ _ _ _ _ _ Hrel Hver Hlog).
  rewrite (build_tags_one _ _ _ HT), HTc.
  apply Forall_app in Hplain as [Hpa Hpb].
  change (@None changelog_entry) with (entry_of []).
  rewrite walk_skip.
  2:{ eapply Forall_impl; [exact Hpa|]. intros c [? ?].
      by apply not_boundary_one_tag. }
  cbn [app]. rewrite He1.
  erewrite walk_boundary; cycle 1.
  { by apply boundary_tagged. }
  { by apply split_two. }
  { rewrite bool_decide_eq_false_2 by done. reflexivity. }
  { exact Hname. }
  rewrite collect_parts, yielded_GYield, outcome_GYield, final_state_GYield.
  rewrite bool_decide_eq_false_2 by done. rewrite lookup_singleton_eq.
  rewrite walk_skip.
  2:{ eapply Forall_impl; [exact Hpb|]. intros c [? ?].
      by apply not_boundary_one_tag. }
  erewrite walk_boundary; cycle 1.
  { by apply boundary_root. }
  { exact HTn. }
  { rewrite bool_decide_eq_true_2 by done. rewrite entry_of_snoc.
    cbn [app]. exact He2. }
  { apply name_cached. by eapply name_Ok. }
  rewrite yielded_GYield, outcome_GYield, final_state_GYield.
  rewrite bool_decide_eq_true_2 by done. reflexivity.
Qed.

(** The sample history with the tag [hybris-mobian/bullseye/1.2.3] on its
    middle commit. *)
Lemma one_tag_two_stanzas_witness :
  exists e1 e2,
    entry_of [Sample.c3] = Some e1
    /\ entry_of [Sample.c2; Sample.c1] = Some e2
    /\ collect (iter_changelog (Sample.start Sample.tagged Sample.hash3 Sample.packaged))
       = (final_state (iter_changelog
                         (Sample.start Sample.tagged Sample.hash3 Sample.packaged)),
          [stanza_text "hello" "0.0.0+git20200103120000.c3c3c3c.release" "master" e1;
           stanza_text "hello" "1.2.3" "bullseye" e2],
          None).
Proof.
  pose (st := Sample.start Sample.tagged Sample.hash3 Sample.packaged).
  apply (one_tag_two_stanzas (H := utc_calendar) st
           (fst (release st))
           (fst (version (fst (release st))))
           (final_state (iter_changelog st))
           Sample.release_tag [Sample.c3] [] Sample.c2 Sample.c1
           "master" "0.0.0+git20200103120000.c3c3c3c.release" "hello"
           "bullseye" "1.2.3").
  - reflexivity.
  - reflexivity.
  - reflexivity.
  - reflexivity.
  - discriminate.
  - repeat constructor; discriminate.
  - discriminate.
  - discriminate.
  - reflexivity.
  - reflexivity.
  - reflexivity.
  - vm_compute. reflexivity.
  - reflexivity.
  - vm_compute. reflexivity.
Defined.

(** C5 as it is worded fails: the only tag with the prefix is
    [hybris-mobian/v1], on the middle one of three commits; one stanza is
    yielded and the walk stops with [ValueError] where it unpacks the name
    of the tag into a release and a version. *)
Lemma one_tag_two_stanzas_counterexample :
  let st := Sample.start Sample.short_tagged Sample.hash3 Sample.packaged in
  List.filter (fun t => Str.startswith (tag_prefix (self st)) (Git.tag_name t))
    (Git.tags (git_repository (self st))) = [Sample.short_tag]
  /\ Git.iter_commits (git_repository (self st)) (commit_hash (self st))
     = Ok [Sample.c3; Sample.c2; Sample.c1]
  /\ Git.tag_commit Sample.short_tag = Git.hexsha Sample.c2
  /\ length (yielded (iter_changelog st)) = 1%nat
  /\ outcome (iter_changelog st) = Some ValueError.
Proof. cbv zeta. repeat split; vm_compute; reflexivity. Qed.

(** The single entry of the sample history without tags. *)
Lemma finalized_entries_oldest_first_witness :
  exists seg,
    infix seg [Sample.c3; Sample.c2; Sample.c1]
    /\ entry_of seg
       = Some {| author := "Alice"; mail := "alice@example.org";
                 contents := [("Alice", ["Initial import"; "Fix build"]);
                              ("Bob", ["Add packaging"])];
                 date := "Fri, 03 Jan 2020 12:00:00 +0000" |}
    /\ forall a ms,
         dict_get [("Alice", ["Initial import"; "Fix build"]);
                   ("Bob", ["Add packaging"])] a = Some ms ->
         ms = rev (messages_of a seg).
Proof.
  apply (finalized_entries_oldest_first (H := utc_calendar)
           (Sample.start Sample.untagged Sample.hash3 Sample.packaged)
           [Sample.c3; Sample.c2; Sample.c1]
           "hello" "0.0.0+git20200103120000.c3c3c3c.release" "master"
           {| author := "Alice"; mail := "alice@example.org";
              contents := [("Alice", ["Initial import"; "Fix build"]);
                           ("Bob", ["Add packaging"])];
              date := "Fri, 03 Jan 2020 12:00:00 +0000" |}).
  - reflexivity.
  - assert (Hy : yielded (iter_entries
                            (Sample.start Sample.untagged Sample.hash3 Sample.packaged))
                 = [("hello", "0.0.0+git20200103120000.c3c3c3c.release", "master",
                     {| author := "Alice"; mail := "alice@example.org";
                        contents := [("Alice", ["Initial import"; "Fix build"]);
                                     ("Bob", ["Add packaging"])];
                        date := "Fri, 03 Jan 2020 12:00:00 +0000" |})])
      by (vm_compute; reflexivity).
    rewrite Hy. apply list_elem_of_here.
Defined.

(** C4 as it is worded fails on standard output: run with the tag
    [hybris-mobian/bullseye/1.0_rc1], the script prints the version with its
    [_], while the stanza in the changelog has [1.0~rc1]. *)
Lemma printed_version_counterexample :
  let run := main (Sample.loader Sample.tagged) Sample.rc_args Sample.packaged in
  snd run = Ok tt
  /\ stdout (fst run)
     = ["I: Resulting version is 1.0_rc1+git20200103120000.c3c3c3c.release"]
  /\ Str.contains "_" "I: Resulting version is 1.0_rc1+git20200103120000.c3c3c3c.release"
     = true
  /\ hd EmptyString
       (yielded (iter_changelog
                   {| self := SlimPackage_init Sample.tagged Sample.hash3
                                (Some "hybris-mobian/bullseye/1.0_rc1") "hybris-mobian/"
                                None "feature/" "release";
                      world := Sample.packaged |}))
     = stanza_text "hello" "1.0_rc1+git20200103120000.c3c3c3c.release" "bullseye"
         {| author := "Alice"; mail := "alice@example.org";
            contents := [("Alice", ["Fix build"])];
            date := "Fri, 03 Jan 2020 12:00:00 +0000" |}.
Proof. cbv zeta. repeat split; vm_compute; reflexivity. Qed.

(** ** A missing [debian/control] (C2) *)

Lemma join_suffix (a b : string) : exists x, os_path.join a b = x +:+ b.
Proof.
  unfold os_path.join. destruct (Str.startswith "/" b); [by exists EmptyString|].
  destruct a as [|c a]; [by exists EmptyString|].
  destruct (Ascii.eqb _ _); [by eexists|].
  exists (String c a +:+ "/"). by rewrite append_assoc.
Qed.

Lemma last_char_app (x b : string) :
  b <> EmptyString -> Str.last_char (x +:+ b) = Str.last_char b.
Proof.
  intros Hb. induction x as [|c x IH]; [reflexivity|].
  cbn [String.append Str.last_char]. rewrite IH.
  destruct b as [|d b]; [done|]. cbn [Str.last_char].
  by destruct (Str.last_char b).
Qed.

Lemma control_is_not_changelog (w : World) (dir : string) :
  resolve w changelog_file <> resolve w (os_path.join dir "debian/control").
Proof.
  unfold resolve.
  destruct (join_suffix dir "debian/control") as [x ->].
  destruct (join_suffix (cwd w) changelog_file) as [y ->].
  destruct (join_suffix (cwd w) (x +:+ "debian/control")) as [z ->].
  intros Heq. apply (f_equal Str.last_char) in Heq.
  rewrite <- append_assoc in Heq. rewrite !last_char_app in Heq by done.
  discriminate.
Qed.

Lemma split_segments_clean (sep : ascii) (s : string) :
  Forall (fun seg => Str.contains sep seg = false) (Str.split sep s).
Proof.
  induction s as [|c s IH]; [by repeat constructor|].
  cbn [Str.split]. destruct (Ascii.eqb c sep) eqn:E.
  - by constructor.
  - destruct (Str.split sep s) as [|seg segs].
    + repeat constructor. cbn [Str.contains]. by rewrite Ascii.eqb_sym, E.
    + inversion IH; subst. constructor; [|done]. cbn [Str.contains].
      by rewrite Ascii.eqb_sym, E.
Qed.

Lemma release_fresh (st : State) :
  _release (self st) = None ->
  is_Some (tag (self st)) \/ is_Some (branch (self st)) ->
  exists st' rel, release st = (st', Ok rel) /\ Str.contains "/" rel = false.
Proof.
  intros Hr Hsome. unfold release, bind, gets, lift, modify_self, ret, raise.
  rewrite Hr. cbn [truthy].
  assert (Hclean : forall s first,
             Str.index (Str.split "/" s) 0 = Ok first -> Str.contains "/" first = false).
  { intros s first. pose proof (split_segments_clean "/" s) as Hall.
    destruct (Str.split "/" s) as [|seg segs]; [discriminate|].
    intros [= <-]. by inversion Hall. }
  destruct (tag (self st)) as [t|]; [|destruct (branch (self st)) as [b|]].
  - destruct (Str.index _ 0) as [first|] eqn:Hi.
    + eexists _, _. split; [reflexivity|]. by eapply Hclean.
    + destruct (index_0_split "/" (Str.replace (tag_prefix (self st)) EmptyString t))
        as (? & ? & _ & Hi'). congruence.
  - destruct (Str.index _ 0) as [first|] eqn:Hi.
    + eexists _, _. split; [reflexivity|]. by eapply Hclean.
    + destruct (index_0_split "/" (Str.replace (branch_prefix (self st)) EmptyString b))
        as (? & ? & _ & Hi'). congruence.
  - destruct Hsome as [[? ?]|[? ?]]; discriminate.
Qed.

Lemma name_no_control (st : State) :
  _name (self st) = None ->
  os_path_exists (world st)
    (os_path.join (Git.working_dir (git_repository (self st))) "debian/control") = false ->
  name st = (st, Raise (Exception "Unable to find debian/control")).
Proof.
  intros Hn He. unfold name, bind, gets, raise. by rewrite Hn, He.
Qed.

Section NoName.

Context `{DateTime}.

(** The walk up to the first boundary, where the name is asked for. *)
Lemma walk_no_name {Y} (fmt : string -> string -> string -> changelog_entry -> Y)
    (tags : gmap string string) (h : string)
    (pre post : list Git.Commit) (b : Git.Commit)
    (nv release version : string) (st : State) (ex : exn) :
  Forall (fun c => is_boundary tags h c = false) pre ->
  is_boundary tags h b = true ->
  pre <> [] \/ Git.parents b = [] ->
  Str.split "/" nv = [release; version] ->
  name st = (st, Raise ex) ->
  walk fmt tags h (pre ++ b :: post) nv None st = GRaise st ex.
Proof.
  intros Hpre Hb Hentry Hs Hn.
  change (@None changelog_entry) with (entry_of []).
  rewrite walk_skip by done. cbn [app].
  destruct (bool_decide (Git.parents b = [])) eqn:Hroot.
  - eapply walk_boundary_no_name; [done..| |done]. by rewrite Hroot.
  - destruct Hentry as [Hne|Hp]; [|by rewrite bool_decide_eq_true_2 in Hroot].
    destruct (entry_of pre) as [e|] eqn:He; [|by destruct pre].
    eapply walk_boundary_no_name; [done..| |done]. by rewrite Hroot.
Qed.

End NoName.

Lemma branch_argument_release (args : Args.t) (repo : Git.Repo) (br : option string) :
  branch_argument args repo = Ok br ->
  is_Some (Args.tag args) \/ is_Some br.
Proof.
  unfold branch_argument.
  destruct (truthy (Args.branch args)) as [b|]; [intros [= <-]; right; by eexists|].
  destruct (Args.tag args) as [[|c t]|]; cbn [truthy].
  - destruct (Git.active_branch_name repo); [|discriminate].
    intros _. left. by eexists.
  - intros _. left. by eexists.
  - destruct (Git.active_branch_name repo); [|discriminate].
    intros [= <-]. right. by eexists.
Qed.

(** C2, as the code has it.  The working directory has no [debian/control];
    the repository loads, the version resolves to [v] (free of [/]), the
    directory of the changelog exists, and the walk reaches a first boundary
    [b] with an entry to close.  Then the script prints the version, opens
    [debian/changelog] for writing, which leaves it empty, and aborts with
    [Unable to find debian/control] before a stanza is written. *)
Theorem missing_control_aborts_after_truncation `{DateTime}
    (git_Repo : string -> result Git.Repo) (args : Args.t) (w : World)
    (repo : Git.Repo) (h : string) (br : option string) (st1 : State) (v : string)
    (pre post : list Git.Commit) (b : Git.Commit) :
  let pkg := SlimPackage_init repo h (Args.tag args) (Args.tag_prefix args)
               br (Args.branch_prefix args) (Args.comment args) in
  let tags := build_tags (Args.tag_prefix args) (Git.tags repo) in
  git_Repo (Args.git_repository args) = Ok repo ->
  commit_argument args repo = Ok h ->
  branch_argument args repo = Ok br ->
  os_path_exists w (os_path.join (Git.working_dir repo) "debian/control") = false ->
  version {| self := pkg; world := w |} = (st1, Ok v) ->
  Str.contains "/" v = false ->
  files w !! os_path.dirname (resolve w changelog_file) = Some Dir ->
  files w !! resolve w changelog_file <> Some Dir ->
  Git.iter_commits repo h = Ok (pre ++ b :: post) ->
  Forall (fun c => is_boundary tags h c = false) pre ->
  is_boundary tags h b = true ->
  pre <> [] \/ Git.parents b = [] ->
  main git_Repo args w
  = ({| files := <[resolve w changelog_file := File EmptyString]> (files w);
        stdout := stdout w ++ ["I: Resulting version is " +:+ v];
        cwd := cwd w |},
     Raise (Exception "Unable to find debian/control")).
Proof.
  cbv zeta. intros Hrepo Hh Hbr Hctl Hv Hv' Hdir Hfile Hlog Hpre Hb Hentry.
  unfold main. rewrite Hrepo, Hh, Hbr. unfold build. rewrite Hv.
  pose proof (version_Ok _ _ _ Hv) as Hcached.
  apply version_state in Hv as (Hw1 & Hobj1 & Hname1 & Hrel1).
  cbn [self world _name _release SlimPackage_init] in Hw1, Hname1, Hrel1.
  cbn [self world]. rewrite Hw1.
  unfold open_write.
  change (resolve (print w _) changelog_file) with (resolve w changelog_file).
  cbn [print files stdout cwd]. rewrite Hdir.
  destruct (files w !! resolve w changelog_file) as [[content|]|] eqn:Hold; [|done|].
  all: set (w3 := {| files := <[resolve w changelog_file := File EmptyString]> (files w);
                     stdout := stdout w ++ ["I: Resulting version is " +:+ v];
                     cwd := cwd w |}).
  all: set (st3 := {| self := self st1; world := w3 |}).
  all: destruct Hobj1 as (Hrepo1 & Hhash1 & Htag1 & Hprefix1 & Hbranch1 & _).
  all: cbn [self git_repository commit_hash tag tag_prefix branch SlimPackage_init]
         in Hrepo1, Hhash1, Htag1, Hprefix1, Hbranch1.
  all: destruct (release_fresh st3) as (st4 & rel & Hrel & Hrel').
  all: try done.
  all: try (cbn [st3 self]; rewrite Htag1, Hbranch1;
            by apply (branch_argument_release args repo)).
  all: pose proof (release_state _ _ _ Hrel) as (Hw4 & Hobj4 & Hname4 & Hver4).
  all: cbn [st3 self world] in Hw4, Hname4, Hver4.
  all: unfold iter_changelog.
  all: erewrite iter_changelog_with_walk;
         [|exact Hrel|apply version_cached; by rewrite Hver4
          |cbn [st3 self]; rewrite Hrepo1, Hhash1; exact Hlog].
  all: cbn [st3 self]; rewrite Hprefix1, Hrepo1, Hhash1.
  all: erewrite walk_no_name; [|done|done|done|by apply split_two|].
  all: try (cbn [for_each]; by rewrite Hw4).
  all: apply name_no_control; [by rewrite Hname4, Hname1|].
  all: destruct Hobj4 as (Hrepo4 & _); rewrite Hrepo4; cbn [st3 self]; rewrite Hrepo1.
  all: rewrite Hw4; unfold os_path_exists in *.
  all: change (resolve w3 ?p) with (resolve w p); cbn [w3 files].
  all: rewrite lookup_insert_ne by apply control_is_not_changelog.
  all: exact Hctl.
Qed.

(** A run in the sample checkout without [debian/control]. *)
Lemma missing_control_aborts_after_truncation_witness :
  main (Sample.loader Sample.tagged) (Args.defaults "/repo") Sample.uncontrolled
  = ({| files := <[resolve Sample.uncontrolled changelog_file := File EmptyString]>
                   (files Sample.uncontrolled);
        stdout := stdout Sample.uncontrolled
                  ++ ["I: Resulting version is "
                      +:+ "1.0+git20200103120000.c3c3c3c.release"];
        cwd := cwd Sample.uncontrolled |},
     Raise (Exception "Unable to find debian/control")).
Proof.
  apply (missing_control_aborts_after_truncation (H := utc_calendar)
           (Sample.loader Sample.tagged) (Args.defaults "/repo") Sample.uncontrolled
           Sample.tagged Sample.hash3 (Some "master")
           (fst (version (Sample.start Sample.tagged Sample.hash3 Sample.uncontrolled)))
           "1.0+git20200103120000.c3c3c3c.release"
           [Sample.c3] [Sample.c1] Sample.c2).
  - reflexivity.
  - reflexivity.
  - reflexivity.
  - vm_compute. reflexivity.
  - vm_compute. reflexivity.
  - reflexivity.
  - vm_compute. reflexivity.
  - vm_compute. discriminate.
  - reflexivity.
  - repeat constructor.
  - vm_compute. reflexivity.
  - left. discriminate.
Defined.

(** C2 as it is worded fails: the checkout has no [debian/control] and a
    changelog of an earlier run; the script aborts over the missing file,
    but only after it has opened the changelog for writing, and the earlier
    content is gone. *)
Lemma missing_control_counterexample :
  let run := main (Sample.loader Sample.tagged) (Args.defaults "/repo")
               Sample.uncontrolled in
  os_path_exists Sample.uncontrolled
    (os_path.join (Git.working_dir Sample.tagged) "debian/control") = false
  /\ files Sample.uncontrolled !! resolve Sample.uncontrolled changelog_file
     = Some (File "hello (1.0) bullseye; urgency=medium")
  /\ snd run = Raise (Exception "Unable to find debian/control")
  /\ files (fst run) !! resolve Sample.uncontrolled changelog_file
     = Some (File EmptyString).
Proof. cbv zeta. repeat split; vm_compute; reflexivity. Qed.

(** ** The body of the stanzas (C7) *)

Lemma first_seen_In (x : string) (l : list string) : In x (first_seen l) -> In x l.
Proof.
  induction l as [|y l IH]; [done|]. cbn [first_seen].
  intros [->|Hin]; [by left|]. right. apply IH.
  by apply filter_In in Hin as [Hin _].
Qed.

Lemma first_seen_NoDup (l : list string) : NoDup (first_seen l).
Proof.
  induction l as [|x l IH]; cbn [first_seen]; [constructor|].
  apply NoDup_cons. split.
  - rewrite list_elem_of_In. intros Hin. apply filter_In in Hin as [_ Hne].
    by rewrite String.eqb_refl in Hne.
  - apply NoDup_ListNoDup, List.NoDup_filter, NoDup_ListNoDup, IH.
Qed.


Section Body.

Context `{DateTime}.


End Body.



(** * Further properties of the code *)

(** ** Characters *)

Lemma allowed_char_not_dot (c : ascii) :
  allowed_char c = true -> Ascii.eqb c "." = false.
Proof. destruct c as [[] [] [] [] [] [] [] []]; vm_compute; congruence. Qed.

Lemma slug_char_lower (c : ascii) : slug_char c = true -> Str.lower_char c = c.
Proof. destruct c as [[] [] [] [] [] [] [] []]; vm_compute; congruence. Qed.

Lemma slug_char_cases (c : ascii) :
  slug_char c = true -> not_allowed_regex c = true -> c = "."%char.
Proof. destruct c as [[] [] [] [] [] [] [] []]; vm_compute; congruence. Qed.

Lemma sanitize_char_idempotent (c : ascii) :
  sanitize_char (sanitize_char c) = sanitize_char c.
Proof. destruct c as [[] [] [] [] [] [] [] []]; reflexivity. Qed.

Lemma sanitize_char_fixed (c : ascii) :
  Ascii.eqb (sanitize_char c) c = negb (Ascii.eqb "_" c || Ascii.eqb "%" c).
Proof. destruct c as [[] [] [] [] [] [] [] []]; reflexivity. Qed.

(** ** The slug *)

Section SlugShape.

Abbreviation cls := not_allowed_regex.
Abbreviation F := (replace_runs not_allowed_regex ".").
Abbreviation starts_dot := (starts_in_class (fun d => Ascii.eqb d ".")).

Lemma replace_runs_step (c : ascii) (t : string) :
  F (String c t)
  = if cls c
    then if starts_in_class cls t then F t else String "." (F t)
    else String c (F t).
Proof. by rewrite replace_runs_cons. Qed.

Lemma replace_runs_alphabet (t : string) : all_chars slug_char (F t) = true.
Proof.
  induction t as [|c t IH]; [reflexivity|].
  rewrite replace_runs_step. destruct (cls c) eqn:Ec.
  - destruct (starts_in_class cls t); [exact IH|]. simpl. exact IH.
  - cbn [all_chars]. rewrite IH, andb_true_r. unfold slug_char.
    unfold not_allowed_regex in Ec. apply negb_false_iff in Ec. by rewrite Ec.
Qed.

Lemma replace_runs_head (t : string) : starts_dot (F t) = starts_in_class cls t.
Proof.
  induction t as [|c t IH]; [reflexivity|].
  rewrite replace_runs_step. cbn [starts_in_class]. destruct (cls c) eqn:Ec.
  - destruct (starts_in_class cls t) eqn:Es; [by rewrite IH|reflexivity].
  - cbn [starts_in_class]. apply allowed_char_not_dot.
    unfold not_allowed_regex in Ec. by apply negb_false_iff in Ec.
Qed.

Lemma replace_runs_no_double_dot (t : string) : no_double_dot (F t) = true.
Proof.
  induction t as [|c t IH]; [reflexivity|].
  rewrite replace_runs_step. destruct (cls c) eqn:Ec.
  - destruct (starts_in_class cls t) eqn:Es; [exact IH|].
    cbn [no_double_dot]. by rewrite replace_runs_head, Es, IH.
  - cbn [no_double_dot]. rewrite IH, andb_true_r.
    rewrite allowed_char_not_dot; [reflexivity|].
    unfold not_allowed_regex in Ec. by apply negb_false_iff in Ec.
Qed.

Lemma replace_runs_fixed (t : string) :
  all_chars slug_char t = true -> no_double_dot t = true -> F t = t.
Proof.
  induction t as [|c t IH]; [reflexivity|].
  cbn [all_chars no_double_dot]. intros [Hc Ht]%andb_true_iff [Hd Hn]%andb_true_iff.
  rewrite replace_runs_step, (IH Ht Hn). destruct (cls c) eqn:Ec; [|reflexivity].
  pose proof (slug_char_cases c Hc Ec) as ->. simpl in Hd.
  destruct t as [|d t]; [reflexivity|]. cbn [starts_in_class] in *.
  apply negb_true_iff in Hd. cbn [all_chars] in Ht.
  apply andb_true_iff in Ht as [Hsd _].
  destruct (cls d) eqn:Ed; [|reflexivity].
  pose proof (slug_char_cases d Hsd Ed) as ->. discriminate.
Qed.

Lemma lower_fixed (t : string) : all_chars slug_char t = true -> Str.lower t = t.
Proof.
  induction t as [|c t IH]; [reflexivity|].
  cbn [all_chars Str.lower]. intros [Hc Ht]%andb_true_iff.
  by rewrite (slug_char_lower c Hc), (IH Ht).
Qed.

Lemma slugify_replace_runs (s : string) : slugify s = F (Str.lower s).
Proof. unfold slugify. apply sub_scan_spec. Qed.

End SlugShape.

(** X1.  A slug consists of the characters [a-z0-9_] and of dots, and no
    two dots stand side by side in it; in particular it has no [/] and no
    blank. *)
Theorem slugify_shape (s : string) :
  all_chars slug_char (slugify s) = true
  /\ no_double_dot (slugify s) = true
  /\ Str.contains "/" (slugify s) = false
  /\ Str.contains " " (slugify s) = false.
Proof.
  rewrite slugify_replace_runs.
  pose proof (replace_runs_alphabet (Str.lower s)) as Ha.
  split; [exact Ha|]. split; [apply replace_runs_no_double_dot|].
  revert Ha. generalize (replace_runs not_allowed_regex "." (Str.lower s)).
  intros t. induction t as [|c t IH]; [done|].
  cbn [all_chars Str.contains]. intros [Hc Ht]%andb_true_iff.
  destruct (IH Ht) as [-> ->]. rewrite !orb_false_r.
  split; destruct c as [[] [] [] [] [] [] [] []]; vm_compute in Hc |- *; congruence.
Qed.

(** X2.  Slugifying is idempotent: the slug of a slug is that slug. *)
Theorem slugify_idempotent (s : string) : slugify (slugify s) = slugify s.
Proof.
  destruct (slugify_shape s) as (Ha & Hd & _).
  rewrite (slugify_replace_runs (slugify s)), (lower_fixed _ Ha).
  by apply replace_runs_fixed.
Qed.

(** ** Sanitized versions *)

(** X3.  Sanitizing a version keeps its length and is idempotent, and it
    leaves a version as it is exactly when the version has neither [_] nor
    [%]. *)
Theorem sanitize_tag_version_stable (v : string) :
  String.length (sanitize_tag_version v) = String.length v
  /\ sanitize_tag_version (sanitize_tag_version v) = sanitize_tag_version v
  /\ String.eqb (sanitize_tag_version v) v
     = negb (Str.contains "_" v || Str.contains "%" v).
Proof.
  rewrite !sanitize_tag_version_spec.
  split; [|split].
  - induction v as [|c v IH]; [reflexivity|]. simpl. by rewrite IH.
  - induction v as [|c v IH]; [reflexivity|].
    cbn [spec_sanitize]. by rewrite sanitize_char_idempotent, IH.
  - induction v as [|c v IH]; [reflexivity|].
    cbn [spec_sanitize Str.contains String.eqb].
    rewrite sanitize_char_fixed, IH.
    destruct (Ascii.eqb "_" c), (Ascii.eqb "%" c),
      (Str.contains "_" v), (Str.contains "%" v); reflexivity.
Qed.

(** ** [tzinfo_from_offset] *)

Lemma digit_char (k : nat) :
  (k < 10)%nat ->
  let c := ascii_of_nat (48 + k) in
  is_digit c = true
  /\ (Ascii.eqb c "+" || Ascii.eqb c "-") = false
  /\ (Z.of_nat (nat_of_ascii c) - 48)%Z = Z.of_nat k.
Proof.
  intros Hk. do 10 (destruct k as [|k]; [by vm_compute|]). lia.
Qed.

Lemma int_of_two_digits (n : nat) :
  (n < 100)%nat -> int_of_digits (two_digits n) = Z.of_nat n.
Proof.
  intros Hn. unfold int_of_digits, two_digits. cbn [list_ascii_of_string fold_left].
  assert (Ha : (n / 10 < 10)%nat) by (apply Nat.Div0.div_lt_upper_bound; lia).
  assert (Hb : (n mod 10 < 10)%nat) by (apply Nat.mod_upper_bound; lia).
  destruct (digit_char _ Ha) as (_ & _ & ->).
  destruct (digit_char _ Hb) as (_ & _ & ->).
  rewrite (Nat.div_mod_eq n 10) at 3. lia.
Qed.

Lemma tzinfo_groups_digits (h m : nat) (junk : string) :
  (h < 100)%nat -> (m < 100)%nat ->
  tzinfo_groups (two_digits h +:+ two_digits m +:+ junk)
  = Ok (EmptyString, two_digits h, two_digits m).
Proof.
  intros Hh Hm. unfold tzinfo_groups, two_digits. cbn [String.append].
  assert (Ha : (h / 10 < 10)%nat) by (apply Nat.Div0.div_lt_upper_bound; lia).
  assert (Hb : (h mod 10 < 10)%nat) by (apply Nat.mod_upper_bound; lia).
  assert (Hc : (m / 10 < 10)%nat) by (apply Nat.Div0.div_lt_upper_bound; lia).
  assert (Hd : (m mod 10 < 10)%nat) by (apply Nat.mod_upper_bound; lia).
  destruct (digit_char _ Ha) as (Ha1 & Ha2 & _).
  destruct (digit_char _ Hb) as (Hb1 & _ & _).
  destruct (digit_char _ Hc) as (Hc1 & _ & _).
  destruct (digit_char _ Hd) as (Hd1 & _ & _).
  cbv zeta in *. rewrite Ha2, Ha1, Hb1, Hc1, Hd1. reflexivity.
Qed.

Lemma tzinfo_groups_signed (c : ascii) (h m : nat) (junk : string) :
  (Ascii.eqb c "+" || Ascii.eqb c "-") = true ->
  (h < 100)%nat -> (m < 100)%nat ->
  tzinfo_groups (String c (two_digits h +:+ two_digits m +:+ junk))
  = Ok (String c EmptyString, two_digits h, two_digits m).
Proof.
  intros Hs Hh Hm. unfold tzinfo_groups. rewrite Hs.
  unfold two_digits. cbn [String.append].
  assert (Ha : (h / 10 < 10)%nat) by (apply Nat.Div0.div_lt_upper_bound; lia).
  assert (Hb : (h mod 10 < 10)%nat) by (apply Nat.mod_upper_bound; lia).
  assert (Hc : (m / 10 < 10)%nat) by (apply Nat.Div0.div_lt_upper_bound; lia).
  assert (Hd : (m mod 10 < 10)%nat) by (apply Nat.mod_upper_bound; lia).
  destruct (digit_char _ Ha) as (Ha1 & _ & _).
  destruct (digit_char _ Hb) as (Hb1 & _ & _).
  destruct (digit_char _ Hc) as (Hc1 & _ & _).
  destruct (digit_char _ Hd) as (Hd1 & _ & _).
  cbv zeta in *. rewrite Ha1, Hb1, Hc1, Hd1. reflexivity.
Qed.

(** X4.  An offset written as an optional sign, two digits of hours and two
    digits of minutes, followed by anything at all, gives the zone of that
    many seconds east of UTC, negative after [-]; the hours and minutes are
    not checked one by one (minutes up to 99 pass), but a total of 24 hours
    or more is refused with [ValueError]. *)
Theorem tzinfo_from_offset_reads_hhmm (sign : string) (h m : nat) (junk : string) :
  (h < 100)%nat -> (m < 100)%nat ->
  sign = "+" \/ sign = "-" \/ sign = EmptyString ->
  tzinfo_from_offset (OffsetStr (sign +:+ two_digits h +:+ two_digits m +:+ junk))
  = let seconds := (Z.of_nat h * 3600 + Z.of_nat m * 60)%Z in
    if (seconds <? 86400)%Z
    then Ok (if String.eqb sign "-" then - seconds else seconds)%Z
    else Raise ValueError.
Proof.
  intros Hh Hm Hsign. unfold tzinfo_from_offset, str_of_offset.
  assert (Hg : tzinfo_groups (sign +:+ two_digits h +:+ two_digits m +:+ junk)
               = Ok (sign, two_digits h, two_digits m)).
  { destruct Hsign as [-> | [-> | ->] ].
    - by apply tzinfo_groups_signed.
    - by apply tzinfo_groups_signed.
    - by apply tzinfo_groups_digits. }
  rewrite Hg, !int_of_two_digits by done. cbv zeta. unfold timezone.
  destruct Hsign as [-> | [-> | ->] ]; cbn [String.eqb Ascii.eqb Bool.eqb];
    destruct (Z.ltb_spec (Z.of_nat h * 3600 + Z.of_nat m * 60) 86400).
  all: try (rewrite (proj2 (Z.ltb_lt _ _)) by lia).
  all: try (rewrite (proj2 (Z.ltb_ge _ _)) by lia).
  all: rewrite ?andb_true_r, ?andb_false_r.
  all: try (rewrite (proj2 (Z.ltb_lt _ _)) by lia).
  all: try reflexivity.
  all: try (f_equal; lia).
  all: try (destruct (_ <? _)%Z; reflexivity).
Qed.

(** [-0130] is ninety minutes west of UTC. *)
Lemma tzinfo_from_offset_reads_hhmm_witness :
  tzinfo_from_offset (OffsetStr "-0130") = Ok (-5400)%Z.
Proof.
  apply (tzinfo_from_offset_reads_hhmm "-" 1 30 EmptyString); [lia|lia|].
  right. left. reflexivity.
Defined.

Lemma short_numbers_refused :
  forallb (fun n => short_number_refused (Z.of_nat n - 999)) (seq 0 1999) = true.
Proof. vm_compute. reflexivity. Qed.

(** X5.  A number is read through its decimal text, which has no leading
    zeros: any number of fewer than four digits, such as 100 for [+0100], is
    refused with [AttributeError]. *)
Theorem tzinfo_from_offset_short_number (z : Z) :
  (-1000 < z < 1000)%Z ->
  tzinfo_from_offset (OffsetInt z) = Raise AttributeError.
Proof.
  intros Hz. pose proof short_numbers_refused as Hall.
  rewrite forallb_forall in Hall.
  specialize (Hall (Z.to_nat (z + 999))).
  replace (Z.of_nat (Z.to_nat (z + 999)) - 999)%Z with z in Hall by lia.
  unfold short_number_refused in Hall.
  assert (Hin : In (Z.to_nat (z + 999)) (seq 0 1999)) by (apply in_seq; lia).
  specialize (Hall Hin).
  destruct (tzinfo_from_offset (OffsetInt z)) as [a|e]; [discriminate|].
  destruct e; (reflexivity || discriminate).
Qed.

(** The number 100. *)
Lemma tzinfo_from_offset_short_number_witness :
  tzinfo_from_offset (OffsetInt 100) = Raise AttributeError.
Proof. apply (tzinfo_from_offset_short_number 100). lia. Defined.

(** ** Reading the version back from a changelog *)

Lemma readline_cons (c : ascii) (s : string) :
  Ascii.eqb c "010" = false -> Str.readline (String c s) = String c (Str.readline s).
Proof.
  intros Hc. unfold Str.readline. cbn [Str.lines]. rewrite Hc.
  by destruct (Str.lines s).
Qed.

Lemma readline_app (x y : string) :
  Str.contains "010" x = false -> Str.readline (x +:+ y) = x +:+ Str.readline y.
Proof.
  induction x as [|c x IH]; [reflexivity|].
  cbn [Str.contains String.append]. rewrite (Ascii.eqb_sym "010" c).
  intros [Hc Hx]%orb_false_iff. by rewrite readline_cons, IH.
Qed.

Lemma split_app_sep (sep : ascii) (a b : string) :
  Str.contains sep a = false ->
  Str.split sep (a +:+ String sep b) = a :: Str.split sep b.
Proof.
  intros Ha. induction a as [|c a IH].
  - cbn [String.append Str.split]. by rewrite Ascii.eqb_refl.
  - cbn [Str.contains] in Ha. cbn [String.append Str.split].
    rewrite (Ascii.eqb_sym sep c) in Ha.
    destruct (Ascii.eqb c sep); simpl in Ha; [discriminate|].
    by rewrite (IH Ha).
Qed.

Lemma split_contains (sep : ascii) (s : string) :
  Str.contains sep s = true -> exists a b rest, Str.split sep s = a :: b :: rest.
Proof.
  induction s as [|c s IH]; [discriminate|].
  cbn [Str.contains Str.split]. rewrite (Ascii.eqb_sym sep c).
  destruct (Ascii.eqb c sep); simpl.
  - intros _. destruct (Str.split sep s) as [|b rest] eqn:E.
    + by destruct (split_not_nil sep s).
    + by eexists _, _, _.
  - intros Hs. destruct (IH Hs) as (a & b & rest & ->). by eexists _, _, _.
Qed.

Lemma contains_app_sep (sep : ascii) (a b : string) :
  Str.contains sep (a +:+ String sep b) = true.
Proof.
  induction a as [|c a IH]; cbn [String.append Str.contains].
  - by rewrite Ascii.eqb_refl.
  - by rewrite IH, orb_true_r.
Qed.

Lemma length_append (x y : string) :
  String.length (x +:+ y) = (String.length x + String.length y)%nat.
Proof. induction x as [|c x IH]; [reflexivity|]. simpl. by rewrite IH. Qed.

Lemma substring_prefix (x y : string) : substring 0 (String.length x) (x +:+ y) = x.
Proof.
  induction x as [|c x IH]; [by destruct y|]. simpl. by rewrite IH.
Qed.

Lemma slice_parenthesised (v : string) : Str.slice_1_m1 ("(" +:+ v +:+ ")") = v.
Proof.
  unfold Str.slice_1_m1. cbn [String.append String.length substring].
  rewrite length_append. cbn [String.length].
  replace (S (String.length v + 1) - 2)%nat with (String.length v) by lia.
  apply substring_prefix.
Qed.

(** X6.  Reading the version from [debian/changelog] is best effort.
    Without the file the answer is [None]; with it, the answer is the second
    blank-separated word of the first line, less its first and its last
    character, and [None] when that line has no blank (an empty file
    included): nothing is raised.  Only a directory in place of the file
    makes the call fail.  The state is left as it was. *)
Theorem changelog_version_is_best_effort (st : State) :
  let path :=
    os_path.join (Git.working_dir (git_repository (self st))) "debian/changelog" in
  get_version_from_changelog st
  = (st,
     match files (world st) !! resolve (world st) path with
     | None => Ok None
     | Some (File content) =>
         if Str.contains " " (Str.readline content)
         then Ok (Some (Str.slice_1_m1
                          (nth 1 (Str.split " " (Str.readline content)) EmptyString)))
         else Ok None
     | Some Dir => Raise (IsADirectoryError path)
     end).
Proof.
  cbv zeta. unfold get_version_from_changelog, bind, gets, lift, ret.
  unfold os_path_exists, open_read.
  destruct (files (world st) !! _) as [[content|]|] eqn:Hf.
  - rewrite bool_decide_eq_true_2 by by eexists.
    destruct (Str.contains " " (Str.readline content)) eqn:Hc.
    + destruct (split_contains _ _ Hc) as (a & b & rest & ->). reflexivity.
    + by rewrite (split_no_sep _ _ Hc).
  - by rewrite bool_decide_eq_true_2 by by eexists.
  - rewrite bool_decide_eq_false_2; [reflexivity|]. by intros [? ?].
Qed.

(** X7.  What is written is read back: from a changelog that starts with a
    stanza of the template, the version read is the sanitized version of
    that stanza, as long as neither it nor the package name has a blank or a
    line end. *)
Theorem changelog_version_round_trip (st : State)
    (n v r : string) (e : changelog_entry) (rest : string) :
  let path :=
    os_path.join (Git.working_dir (git_repository (self st))) "debian/changelog" in
  files (world st) !! resolve (world st) path
  = Some (File (stanza_text n v r e +:+ rest)) ->
  Str.contains " " n = false -> Str.contains "010" n = false ->
  Str.contains " " (sanitize_tag_version v) = false ->
  Str.contains "010" (sanitize_tag_version v) = false ->
  get_version_from_changelog st = (st, Ok (Some (sanitize_tag_version v))).
Proof.
  cbv zeta. intros Hf Hn1 Hn2 Hv1 Hv2.
  pose proof (changelog_version_is_best_effort st) as Hread. cbv zeta in Hread.
  rewrite Hread, Hf. clear Hread Hf.
  set (v' := sanitize_tag_version v) in *.
  assert (Hline : exists tail,
             Str.readline (stanza_text n v r e +:+ rest)
             = n +:+ String " " (("(" +:+ v' +:+ ")") +:+ String " " tail)).
  { unfold stanza_text, DEBIAN_CHANGELOG_TEMPLATE. fold v'.
    rewrite !append_assoc. rewrite readline_app by done.
    cbn [String.append]. rewrite readline_cons by reflexivity.
    rewrite readline_cons by reflexivity.
    rewrite readline_app by done.
    cbn [String.append]. rewrite readline_cons by reflexivity.
    rewrite readline_cons by reflexivity.
    eexists. rewrite !append_assoc. reflexivity. }
  destruct Hline as [tail ->].
  assert (Hparen : Str.contains " " ("(" +:+ v' +:+ ")") = false).
  { cbn [String.append Str.contains Ascii.eqb Bool.eqb orb].
    clear -Hv1. induction v' as [|c w IH]; [reflexivity|].
    cbn [Str.contains String.append] in *.
    apply orb_false_iff in Hv1 as [-> Hw]. by rewrite (IH Hw). }
  rewrite split_app_sep by done. rewrite split_app_sep by done.
  cbn [nth].
  assert (Hc : Str.contains " "
                 (n +:+ String " " (("(" +:+ v' +:+ ")") +:+ String " " tail)) = true).
  { apply contains_app_sep. }
  rewrite Hc. by rewrite slice_parenthesised.
Qed.

(** The stanza of the version [1.0_rc1] is read back as [1.0~rc1]. *)
Lemma changelog_version_round_trip_witness :
  get_version_from_changelog (Sample.start Sample.tagged Sample.hash3 sample_written)
  = (Sample.start Sample.tagged Sample.hash3 sample_written,
     Ok (Some (sanitize_tag_version "1.0_rc1"))).
Proof.
  apply (changelog_version_round_trip
           (Sample.start Sample.tagged Sample.hash3 sample_written)
           "hello" "1.0_rc1" "bullseye" sample_entry EmptyString).
  - vm_compute. reflexivity.
  - reflexivity.
  - reflexivity.
  - reflexivity.
  - reflexivity.
Defined.

(** ** The base version and the cached properties *)

(** X8.  How the base version is resolved in fact: with a tag, it is the
    last segment of the tag without the tag prefix, and no file is read;
    without a tag, it is the version read from [debian/changelog] when there
    is one, and [0.0.0] otherwise.  What [git describe] would print plays no
    part, and the state is left as it was. *)
Theorem base_version_resolution (st : State) :
  first_not_none _starting_version_strategies None st
  = (st,
     match tag (self st) with
     | Some t =>
         Ok (last (Str.split "/" (Str.replace (tag_prefix (self st)) EmptyString t)))
     | None =>
         match snd (get_version_from_changelog st) with
         | Ok (Some v) => Ok (Some v)
         | Ok None => Ok (Some "0.0.0")
         | Raise e => Raise e
         end
     end).
Proof.
  destruct (get_version_from_changelog st) as [st' r] eqn:Hget.
  pose proof (changelog_version_is_best_effort st) as Hst. cbv zeta in Hst.
  rewrite Hget in Hst. injection Hst as -> _.
  unfold _starting_version_strategies, first_not_none, bind, gets, lift, ret.
  change (none_on_exception _ _) with VNone. cbv iota.
  destruct (tag (self st)) as [t|].
  - unfold Str.index_last.
    destruct (last _) as [v|] eqn:Hl; [reflexivity|].
    apply last_None in Hl. by destruct (split_not_nil "/" _ Hl).
  - rewrite Hget. cbn [snd]. by destruct r as [[v|]|].
Qed.

Section Cached.

Context `{DateTime}.

Lemma name_keeps_version (st st' : State) (r : result string) :
  name st = (st', r) -> _version (self st') = _version (self st).
Proof.
  unfold name, bind, gets, lift, modify_self, ret, raise.
  destruct (_name (self st)) as [n0|]; [by intros [= <- _]|].
  destruct (os_path_exists _ _); [|by intros [= <- _]].
  destruct (open_read _ _); [|by intros [= <- _]].
  destruct (List.find _ _); [|by intros [= <- _]].
  destruct (Str.index_last _); by intros [= <- _].
Qed.

Lemma is_native_keeps_version (st st' : State) (r : result bool) :
  is_native st = (st', r) -> _version (self st') = _version (self st).
Proof.
  unfold is_native, bind, gets, lift, modify_self, ret, raise.
  destruct (_is_native (self st)) as [b0|]; [by intros [= <- _]|].
  destruct (os_path_exists _ _); [|by intros [= <- _]].
  destruct (open_read _ _); by intros [= <- _].
Qed.

Lemma later_keeps_version (st st' : State) (v : string) :
  _version (self st) = Some v -> later st st' -> _version (self st') = Some v.
Proof.
  intros Hv Hl.
  induction Hl as [|st1 w _ IH|st1 st2 r _ IH Hn|st1 st2 r _ IH Hn
                   |st1 st2 r _ IH Hn|st1 st2 r _ IH Hn].
  - exact Hv.
  - exact IH.
  - by rewrite (name_keeps_version _ _ _ Hn).
  - by rewrite (is_native_keeps_version _ _ _ Hn).
  - rewrite (version_cached _ _ IH) in Hn. by injection Hn as <- _.
  - apply release_state in Hn as (_ & _ & _ & ->). exact IH.
Qed.

(** X9.  The version is computed once: after a first successful read, the
    property gives the same string, and leaves the state as it is, in every
    later state of the package object: whatever has been written to the
    files in between (the changelog may have been replaced) and whichever
    of the properties [name], [is_native], [version] and [release] have
    been read in between, with or without success. *)
Theorem version_is_computed_once (st st' : State) (v : string) :
  version st = (st', Ok v) ->
  forall st'' : State, later st' st'' -> version st'' = (st'', Ok v).
Proof.
  intros Hv st'' Hl. apply version_cached.
  apply (later_keeps_version st'); [|exact Hl]. by apply version_Ok in Hv.
Qed.


End Cached.

(** The version of the sample checkout, read again as the script does: after
    the changelog has gone and the release has been read. *)
Lemma version_is_computed_once_witness :
  let first := fst (version (Sample.start Sample.tagged Sample.hash3
                               Sample.uncontrolled)) in
  let second := fst (release {| self := self first; world := Sample.packaged |}) in
  _release (self first) = None
  /\ _release (self second) = Some "master"
  /\ version second = (second, Ok "1.0+git20200103120000.c3c3c3c.release").
Proof.
  cbv zeta. split; [reflexivity|]. split; [reflexivity|].
  apply (version_is_computed_once (H := utc_calendar)
           (Sample.start Sample.tagged Sample.hash3 Sample.uncontrolled)
           (fst (version (Sample.start Sample.tagged Sample.hash3
                            Sample.uncontrolled)))).
  - vm_compute. reflexivity.
  - apply later_release
      with (st1 := {| self := self (fst (version (Sample.start Sample.tagged
                                                    Sample.hash3
                                                    Sample.uncontrolled)));
                      world := Sample.packaged |})
           (r := Ok "master").
    + apply later_files, later_now.
    + reflexivity.
Defined.


(** ** Stripping blanks *)

Lemma rstrip_app (x y : string) :
  Str.rstrip (x +:+ y)
  = match Str.rstrip y with
    | EmptyString => Str.rstrip x
    | r => x +:+ r
    end.
Proof.
  induction x as [|c x IH].
  { cbn [String.append]. by destruct (Str.rstrip y). }
  cbn [String.append Str.rstrip]. rewrite IH.
  destruct (Str.rstrip y) as [|d r]; [reflexivity|].
  by destruct x.
Qed.

Lemma rstrip_whitespace (ws : string) :
  is_whitespace ws = true -> Str.rstrip ws = EmptyString.
Proof.
  unfold is_whitespace. induction ws as [|c ws IH]; [reflexivity|].
  cbn [all_chars Str.rstrip]. intros [Hc Hws]%andb_true_iff.
  by rewrite (IH Hws), Hc.
Qed.

Lemma lstrip_whitespace_app (ws s : string) :
  is_whitespace ws = true -> Str.lstrip (ws +:+ s) = Str.lstrip s.
Proof.
  unfold is_whitespace. induction ws as [|c ws IH]; [reflexivity|].
  cbn [all_chars String.append Str.lstrip]. intros [-> Hws]%andb_true_iff.
  by apply IH.
Qed.

Lemma lstrip_decompose (s : string) :
  exists ws, is_whitespace ws = true /\ s = ws +:+ Str.lstrip s.
Proof.
  unfold is_whitespace. induction s as [|c s (ws & Hws & IH)].
  { by exists EmptyString. }
  cbn [Str.lstrip]. destruct (Str.is_space c) eqn:Hc.
  - exists (String c ws). cbn [all_chars String.append]. rewrite Hc, Hws.
    split; [reflexivity|]. by rewrite <- IH.
  - by exists EmptyString.
Qed.

Lemma rstrip_decompose (s : string) :
  exists ws, is_whitespace ws = true /\ s = Str.rstrip s +:+ ws.
Proof.
  unfold is_whitespace. induction s as [|c s (ws & Hws & IH)].
  { by exists EmptyString. }
  cbn [Str.rstrip]. destruct (Str.rstrip s) as [|d r] eqn:Hr.
  - destruct (Str.is_space c) eqn:Hc.
    + exists (String c ws). cbn [all_chars String.append]. rewrite Hc, Hws.
      split; [reflexivity|]. by rewrite IH at 1.
    + exists ws. split; [done|]. cbn [String.append]. by rewrite IH at 1.
  - exists ws. split; [done|]. cbn [String.append]. by rewrite IH at 1.
Qed.

(** ** The package name *)

Lemma find_first {A} (p : A -> bool) (before after : list A) (x : A) :
  Forall (fun y => p y = false) before -> p x = true ->
  List.find p (before ++ x :: after) = Some x.
Proof.
  intros Hb Hx. induction Hb as [|y before Hy _ IH]; simpl.
  - by rewrite Hx.
  - by rewrite Hy.
Qed.

Lemma find_none_Forall {A} (p : A -> bool) (l : list A) :
  List.find p l = None <-> Forall (fun y => p y = false) l.
Proof.
  induction l as [|y l IH]; simpl.
  { split; [constructor|done]. }
  destruct (p y) eqn:Hy.
  - split; [discriminate|]. intros Hall. inversion Hall; congruence.
  - rewrite IH. split; [by constructor|]. intros Hall. by inversion Hall.
Qed.

Lemma split1_not_nil (sep : ascii) (s : string) : Str.split1 sep s <> [].
Proof.
  destruct s as [|c s]; simpl; [discriminate|].
  destruct (Ascii.eqb c sep); [discriminate|].
  destruct (Str.split1 sep s); discriminate.
Qed.

Lemma name_of_source_line (tail : string) :
  Str.index_last (Str.split1 " " (Str.strip ("Source: " +:+ tail)))
  = Ok (name_of_tail tail).
Proof.
  unfold Str.strip, name_of_tail.
  change (Str.lstrip ("Source: " +:+ tail)) with ("Source: " +:+ tail).
  rewrite rstrip_app. destruct (Str.rstrip tail) as [|d r]; reflexivity.
Qed.

(** X11.  The package name comes from the first line of [debian/control]
    that starts with [Source: ]: it is the rest of that line without the
    blanks at its end (blanks at its start are kept), and [Source:] itself
    when nothing but blanks follows.  The name is stored in the object. *)
Theorem name_from_source_line (st : State) (content : string)
    (before after : list string) (tail : string) :
  let path :=
    os_path.join (Git.working_dir (git_repository (self st))) "debian/control" in
  _name (self st) = None ->
  files (world st) !! resolve (world st) path = Some (File content) ->
  Str.lines content = before ++ ("Source: " +:+ tail) :: after ->
  Forall (fun line => Str.startswith "Source: " line = false) before ->
  name st
  = ({| self := set__name (name_of_tail tail) (self st); world := world st |},
     Ok (name_of_tail tail)).
Proof.
  cbv zeta. intros Hn Hf Hl Hb.
  unfold name, bind, gets, lift, modify_self, ret, raise.
  rewrite Hn. unfold os_path_exists, open_read. rewrite Hf.
  rewrite bool_decide_eq_true_2 by by eexists.
  rewrite Hl, find_first; [|done|apply prefix_append].
  by rewrite name_of_source_line.
Qed.

(** X12.  With [debian/control] in place and no name stored yet, reading
    the name fails exactly when no line of the file starts with [Source: ];
    the failure is [Unable to determine the source package name!], and it
    leaves the state as it was. *)
Theorem name_needs_source_line (st : State) (content : string) :
  let path :=
    os_path.join (Git.working_dir (git_repository (self st))) "debian/control" in
  _name (self st) = None ->
  files (world st) !! resolve (world st) path = Some (File content) ->
  (name st
   = (st, Raise (Exception "Unable to determine the source package name!"))
   <-> Forall (fun line => Str.startswith "Source: " line = false) (Str.lines content))
  /\ ((exists st' e, name st = (st', Raise e))
      <-> Forall (fun line => Str.startswith "Source: " line = false)
            (Str.lines content)).
Proof.
  cbv zeta. intros Hn Hf.
  unfold name, bind, gets, lift, modify_self, ret, raise.
  rewrite Hn. unfold os_path_exists, open_read. rewrite Hf.
  rewrite bool_decide_eq_true_2 by by eexists.
  rewrite <- find_none_Forall.
  destruct (List.find _ _) as [line|]; [|by split; split; eauto].
  unfold Str.index_last.
  destruct (last _) as [n|] eqn:Hlast.
  - split; split; try discriminate. by intros (? & ? & ?).
  - apply last_None in Hlast. by destruct (split1_not_nil _ _ Hlast).
Qed.

(** The name of the sample checkout. *)
Lemma name_from_source_line_witness :
  name (Sample.start Sample.tagged Sample.hash3 Sample.packaged)
  = ({| self := set__name "hello" (Sample.package Sample.tagged Sample.hash3);
        world := Sample.packaged |},
     Ok "hello").
Proof.
  apply (name_from_source_line
           (Sample.start Sample.tagged Sample.hash3 Sample.packaged)
           Sample.control [] ["Section: misc" +:+ Str.nl] ("hello" +:+ Str.nl)).
  - reflexivity.
  - vm_compute. reflexivity.
  - vm_compute. reflexivity.
  - constructor.
Defined.

(** A [debian/control] without a source line. *)
Lemma name_needs_source_line_witness :
  name (Sample.start Sample.tagged Sample.hash3 sample_nameless)
  = (Sample.start Sample.tagged Sample.hash3 sample_nameless,
     Raise (Exception "Unable to determine the source package name!")).
Proof.
  assert (Hn : _name (self (Sample.start Sample.tagged Sample.hash3 sample_nameless))
               = None) by reflexivity.
  assert (Hf : files sample_nameless
               !! resolve sample_nameless
                    (os_path.join (Git.working_dir Sample.tagged) "debian/control")
               = Some (File ("Section: misc" +:+ Str.nl)))
    by (vm_compute; reflexivity).
  destruct (name_needs_source_line
              (Sample.start Sample.tagged Sample.hash3 sample_nameless)
              ("Section: misc" +:+ Str.nl) Hn Hf) as [[_ Hback] _].
  apply Hback. repeat constructor.
Defined.

(** ** The source format *)

(** X13.  With [debian/source/format] in place and nothing stored yet, the
    package is found non-native exactly when the file holds [3.0 (quilt)]
    with nothing but blanks and line ends around it; any other content makes
    it native.  The answer is stored in the object. *)
Theorem is_native_reads_format (st : State) (content : string) :
  let path :=
    os_path.join (Git.working_dir (git_repository (self st))) "debian/source/format" in
  _is_native (self st) = None ->
  files (world st) !! resolve (world st) path = Some (File content) ->
  exists native : bool,
    is_native st
    = ({| self := set__is_native native (self st); world := world st |}, Ok native)
    /\ (native = false
        <-> exists ws1 ws2,
              is_whitespace ws1 = true /\ is_whitespace ws2 = true
              /\ content = ws1 +:+ "3.0 (quilt)" +:+ ws2).
Proof.
  cbv zeta. intros Hn Hf.
  unfold is_native, bind, gets, lift, modify_self, ret, raise.
  rewrite Hn. unfold os_path_exists, open_read. rewrite Hf.
  rewrite bool_decide_eq_true_2 by by eexists.
  eexists. split; [reflexivity|].
  rewrite negb_false_iff, String.eqb_eq. unfold Str.strip. split.
  - intros Hs.
    destruct (lstrip_decompose content) as (ws1 & Hws1 & Hc).
    destruct (rstrip_decompose (Str.lstrip content)) as (ws2 & Hws2 & Hl).
    exists ws1, ws2. split; [done|]. split; [done|].
    rewrite Hs in Hl. by rewrite <- Hl.
  - intros (ws1 & ws2 & Hws1 & Hws2 & ->).
    rewrite lstrip_whitespace_app by done.
    change (Str.lstrip ("3.0 (quilt)" +:+ ws2)) with ("3.0 (quilt)" +:+ ws2).
    by rewrite rstrip_app, rstrip_whitespace.
Qed.

(** The quilt format, followed by a line end. *)
Lemma is_native_reads_format_witness :
  exists native : bool,
    is_native (Sample.start Sample.tagged Sample.hash3 sample_quilt)
    = ({| self := set__is_native native (Sample.package Sample.tagged Sample.hash3);
          world := sample_quilt |}, Ok native)
    /\ (native = false
        <-> exists ws1 ws2,
              is_whitespace ws1 = true /\ is_whitespace ws2 = true
              /\ "3.0 (quilt)" +:+ Str.nl = ws1 +:+ "3.0 (quilt)" +:+ ws2).
Proof.
  apply (is_native_reads_format
           (Sample.start Sample.tagged Sample.hash3 sample_quilt)
           ("3.0 (quilt)" +:+ Str.nl)).
  - reflexivity.
  - vm_compute. reflexivity.
Defined.

(** ** The release *)

(** X14.  Read for the first time, the release has no [/], whether it
    comes from the tag or from the branch; and reading it again gives the
    same release without changing the state any further. *)
Theorem release_is_one_segment (st st' : State) (rel : string) :
  _release (self st) = None ->
  release st = (st', Ok rel) ->
  Str.contains "/" rel = false /\ release st' = (st', Ok rel).
Proof.
  intros Hr. unfold release at 1. unfold bind, gets, lift, modify_self, ret, raise.
  rewrite Hr. cbn [truthy].
  assert (Hclean : forall s first,
             Str.index (Str.split "/" s) 0 = Ok first -> Str.contains "/" first = false).
  { intros s first. pose proof (split_segments_clean "/" s) as Hall.
    destruct (Str.split "/" s) as [|seg segs]; [discriminate|].
    intros [= <-]. by inversion Hall. }
  destruct (tag (self st)) as [t|] eqn:Ht; [|destruct (branch (self st)) as [b|] eqn:Hb].
  - destruct (Str.index _ 0) as [first|] eqn:Hi; [|discriminate].
    intros [= <- <-]. split; [by eapply Hclean|].
    unfold release, bind, gets, lift, modify_self, ret, raise.
    cbn [self _release set__release truthy tag tag_prefix].
    destruct first as [|c first]; cbn [truthy]; [|reflexivity].
    rewrite Ht, Hi. reflexivity.
  - destruct (Str.index _ 0) as [first|] eqn:Hi; [|discriminate].
    intros [= <- <-]. split; [by eapply Hclean|].
    unfold release, bind, gets, lift, modify_self, ret, raise.
    cbn [self _release set__release truthy tag tag_prefix branch branch_prefix].
    destruct first as [|c first]; cbn [truthy]; [|reflexivity].
    rewrite Ht, Hb, Hi. reflexivity.
  - discriminate.
Qed.

(** The release of the sample package, read from its branch. *)
Lemma release_is_one_segment_witness :
  Str.contains "/" "master" = false
  /\ release (fst (release (Sample.start Sample.tagged Sample.hash3 Sample.packaged)))
     = (fst (release (Sample.start Sample.tagged Sample.hash3 Sample.packaged)),
        Ok "master").
Proof.
  apply (release_is_one_segment
           (Sample.start Sample.tagged Sample.hash3 Sample.packaged)).
  - reflexivity.
  - vm_compute. reflexivity.
Defined.

(** ** The dictionary of tags *)

Lemma foldl_tags_lookup (prefix : string) (l : list Git.TagReference) (h : string)
    (acc : gmap string string) :
  foldl
    (fun tags t =>
       if Str.startswith prefix (Git.tag_name t)
       then <[Git.tag_commit t := Str.replace prefix EmptyString (Git.tag_name t)]> tags
       else tags)
    acc l !! h
  = match last (map (fun t => Str.replace prefix EmptyString (Git.tag_name t))
                  (List.filter
                     (fun t => Str.startswith prefix (Git.tag_name t)
                               && String.eqb (Git.tag_commit t) h) l)) with
    | Some v => Some v
    | None => acc !! h
    end.
Proof.
  revert acc. induction l as [|t l IH]; intros acc; [reflexivity|].
  cbn [foldl List.filter]. rewrite IH.
  destruct (Str.startswith prefix (Git.tag_name t)); cbn [andb]; [|reflexivity].
  destruct (String.eqb_spec (Git.tag_commit t) h) as [->|Hne].
  - cbn [map]. rewrite last_cons, lookup_insert_eq. by destruct (last _).
  - by rewrite lookup_insert_ne.
Qed.

(** X15.  The dictionary of tags maps a commit to the name, without the
    prefix, of the last tag in the repository's list that starts with the
    prefix and points to that commit; tags without the prefix are left out,
    and a commit without such a tag has no entry. *)
Theorem tags_lookup (prefix : string) (l : list Git.TagReference) (h : string) :
  build_tags prefix l !! h
  = last (map (fun t => Str.replace prefix EmptyString (Git.tag_name t))
            (List.filter
               (fun t => Str.startswith prefix (Git.tag_name t)
                         && String.eqb (Git.tag_commit t) h) l)).
Proof.
  unfold build_tags. rewrite foldl_tags_lookup, lookup_empty. by destruct (last _).
Qed.

(** ** Stanzas and boundaries *)

Section Boundaries.

Context `{DateTime}.

Lemma iter_changelog_with_cases {Y}
    (fmt : string -> string -> string -> changelog_entry -> Y)
    (st : State) (commits : list Git.Commit) :
  Git.iter_commits (git_repository (self st)) (commit_hash (self st)) = Ok commits ->
  (exists st' e, iter_changelog_with fmt st = GRaise st' e)
  \/ (exists st2 nv,
        iter_changelog_with fmt st
        = walk fmt (build_tags (tag_prefix (self st)) (Git.tags (git_repository (self st))))
            (commit_hash (self st)) commits nv None st2).
Proof.
  intros Hc.
  destruct (release st) as [st1 [r|e]] eqn:Hr.
  2:{ left. unfold iter_changelog_with. rewrite Hr. by eexists _, _. }
  destruct (version st1) as [st2 [v|e]] eqn:Hv.
  2:{ left. unfold iter_changelog_with. rewrite Hr, Hv. by eexists _, _. }
  right. exists st2, (r +:+ "/" +:+ v).
  exact (iter_changelog_with_walk _ _ _ _ _ _ _ Hr Hv Hc).
Qed.

Lemma walk_count {Y} (fmt : string -> string -> string -> changelog_entry -> Y)
    (tags : gmap string string) (h : string) (commits : list Git.Commit) :
  forall (nv : string) (entry : option changelog_entry) (st : State),
    (length (yielded (walk fmt tags h commits nv entry st))
     <= length (List.filter (is_boundary tags h) commits))%nat
    /\ (outcome (walk fmt tags h commits nv entry st) = None ->
        length (yielded (walk fmt tags h commits nv entry st))
        = length (List.filter (is_boundary tags h) commits)).
Proof.
  induction commits as [|c rest IH]; intros nv entry st; [by split|].
  cbn [walk List.filter]. destruct (is_boundary tags h c); [|apply IH].
  cbn [length].
  destruct (unpack2 _) as [[release version]|ex]; [|split; [cbn; lia|discriminate]].
  destruct (if bool_decide (Git.parents c = []) then _ else _) as [e|];
    [|split; [cbn; lia|discriminate]].
  destruct (name st) as [st' [n|ex]]; [|split; [cbn; lia|discriminate]].
  rewrite yielded_GYield, outcome_GYield. cbn [length].
  destruct (bool_decide (Git.parents c = [])).
  - destruct (IH nv (entry_of [c]) st') as [Hle Heq].
    split; [apply le_n_S, Hle|]. intros Ho. f_equal. exact (Heq Ho).
  - destruct (tags !! Git.hexsha c) as [tv|]; [|split; [cbn; lia|discriminate]].
    destruct (IH tv (entry_of [c]) st') as [Hle Heq].
    split; [apply le_n_S, Hle|]. intros Ho. f_equal. exact (Heq Ho).
Qed.

(** When the walk ends with the root, the entries it closes cut the history
    into consecutive runs. *)
Lemma walk_partition (tags : gmap string string) (h : string)
    (body : list Git.Commit) (root : Git.Commit) :
  Forall (fun c => Git.parents c <> []) body ->
  Git.parents root = [] ->
  forall (cur : list Git.Commit) (nv : string) (st : State),
    outcome (walk (fun n v r e => (n, v, r, e)) tags h (body ++ [root]) nv
               (entry_of cur) st) = None ->
    exists segs,
      concat segs = cur ++ body ++ [root]
      /\ Forall2 (fun seg y => entry_of seg = Some (snd y)) segs
           (yielded (walk (fun n v r e => (n, v, r, e)) tags h (body ++ [root]) nv
                       (entry_of cur) st)).
Proof.
  intros Hbody Hroot. induction Hbody as [|c body Hc _ IH]; intros cur nv st.
  - cbn [app walk]. rewrite boundary_root by done.
    destruct (unpack2 _) as [[release version]|ex]; [|discriminate].
    rewrite bool_decide_eq_true_2 by done.
    destruct (name st) as [st' [n|ex]]; [|discriminate].
    intros _. rewrite yielded_GYield. cbn [walk yielded collect snd fst].
    exists [cur ++ [root]]. split; [cbn; by rewrite app_nil_r|].
    constructor; [|constructor]. cbn [snd]. symmetry. apply entry_of_snoc.
  - cbn [app]. destruct (is_boundary tags h c) eqn:Hb.
    + cbn [walk]. rewrite Hb.
      destruct (unpack2 _) as [[release version]|ex]; [|discriminate].
      rewrite bool_decide_eq_false_2 by done.
      destruct (entry_of cur) as [e|] eqn:He; [|discriminate].
      destruct (name st) as [st' [n|ex]]; [|discriminate].
      rewrite outcome_GYield, yielded_GYield.
      destruct (tags !! Git.hexsha c) as [tv|]; [|discriminate].
      intros Ho. destruct (IH [c] tv st' Ho) as (segs & Hcat & Hall).
      exists (cur :: segs). split; [cbn; by rewrite Hcat|].
      constructor; [exact He|exact Hall].
    + rewrite walk_not_boundary by done. rewrite entry_of_snoc.
      intros Ho. destruct (IH (cur ++ [c]) nv st Ho) as (segs & Hcat & Hall).
      exists segs. split; [by rewrite Hcat, <- app_assoc|exact Hall].
Qed.

End Boundaries.

(** X16.  One stanza per boundary: the stanzas that [iter_changelog] yields
    are never more than the boundary commits of the walk (the parentless
    commits, and the tagged commits other than the starting one), and when
    the walk runs to its end without an exception there is exactly one
    stanza for each of them. *)
Theorem one_stanza_per_boundary `{DateTime} (st : State) (commits : list Git.Commit) :
  let tags := build_tags (tag_prefix (self st)) (Git.tags (git_repository (self st))) in
  let boundaries := List.filter (is_boundary tags (commit_hash (self st))) commits in
  Git.iter_commits (git_repository (self st)) (commit_hash (self st)) = Ok commits ->
  (length (yielded (iter_changelog st)) <= length boundaries)%nat
  /\ (outcome (iter_changelog st) = None ->
      length (yielded (iter_changelog st)) = length boundaries).
Proof.
  cbv zeta. intros Hc. unfold iter_changelog.
  destruct (iter_changelog_with_cases stanza_text st commits Hc)
    as [(st' & e & ->)|(st2 & nv & ->)].
  - split; [cbn; lia|discriminate].
  - apply walk_count.
Qed.

(** X17.  No commit is lost and none is counted twice: when the walk ends
    with the root, the only commit without parents, and [iter_changelog] runs
    to its end, the entries it finalizes are the entries of consecutive runs
    of the walk which, put end to end in the order of the stanzas, are the
    whole walk. *)
Theorem stanzas_partition_the_history `{DateTime} (st : State)
    (body : list Git.Commit) (root : Git.Commit) :
  Git.iter_commits (git_repository (self st)) (commit_hash (self st))
  = Ok (body ++ [root]) ->
  Forall (fun c => Git.parents c <> []) body ->
  Git.parents root = [] ->
  outcome (iter_entries st) = None ->
  exists segs,
    concat segs = body ++ [root]
    /\ Forall2 (fun seg y => entry_of seg = Some (snd y)) segs (yielded (iter_entries st)).
Proof.
  intros Hc Hbody Hroot. unfold iter_entries.
  destruct (iter_changelog_with_cases (fun n v r e => (n, v, r, e)) st _ Hc)
    as [(st' & e & ->)|(st2 & nv & ->)]; [discriminate|].
  change (@None changelog_entry) with (entry_of []).
  intros Ho. exact (walk_partition _ _ _ _ Hbody Hroot [] nv st2 Ho).
Qed.

(** The sample history: two boundaries, two stanzas. *)
Lemma one_stanza_per_boundary_witness :
  (length (yielded (iter_changelog
                      (Sample.start Sample.tagged Sample.hash3 Sample.packaged)))
   <= 2)%nat
  /\ (outcome (iter_changelog
                 (Sample.start Sample.tagged Sample.hash3 Sample.packaged)) = None ->
      length (yielded (iter_changelog
                         (Sample.start Sample.tagged Sample.hash3 Sample.packaged)))
      = 2%nat).
Proof.
  apply (one_stanza_per_boundary (H := utc_calendar)
           (Sample.start Sample.tagged Sample.hash3 Sample.packaged)
           [Sample.c3; Sample.c2; Sample.c1]).
  reflexivity.
Defined.

(** The sample history falls into the run after the tag and the run from
    the tag to the root. *)
Lemma stanzas_partition_the_history_witness :
  exists segs,
    concat segs = [Sample.c3; Sample.c2] ++ [Sample.c1]
    /\ Forall2 (fun seg y => entry_of seg = Some (snd y)) segs
         (yielded (iter_entries
                     (Sample.start Sample.tagged Sample.hash3 Sample.packaged))).
Proof.
  apply (stanzas_partition_the_history (H := utc_calendar)
           (Sample.start Sample.tagged Sample.hash3 Sample.packaged)
           [Sample.c3; Sample.c2] Sample.c1).
  - reflexivity.
  - repeat constructor; discriminate.
  - reflexivity.
  - vm_compute. reflexivity.
Defined.

(** ** Histories without a boundary before the root, and a tagged start *)

Section Edges.

Context `{DateTime}.

Lemma not_boundary_plain (tags : gmap string string) (h : string) (c : Git.Commit) :
  Git.parents c <> [] ->
  tags !! Git.hexsha c = None \/ Git.hexsha c = h ->
  is_boundary tags h c = false.
Proof.
  intros Hp Ht. unfold is_boundary.
  rewrite (bool_decide_eq_false_2 (Git.parents c = [])) by done.
  rewrite orb_false_r. destruct Ht as [-> | ->].
  - rewrite bool_decide_eq_false_2; [reflexivity|]. by intros [? ?].
  - rewrite String.eqb_refl. apply andb_false_r.
Qed.

End Edges.

(** A version with a [/] in it cannot be unpacked at a boundary. *)
Lemma unpack2_slash_version (rel ver : string) :
  Str.contains "/" rel = false ->
  Str.contains "/" ver = true ->
  unpack2 (Str.split "/" (rel +:+ "/" +:+ ver)) = Raise ValueError.
Proof.
  intros Hrel Hver.
  change (rel +:+ "/" +:+ ver) with (rel +:+ String "/" ver).
  rewrite split_app_sep by done.
  by destruct (split_contains "/" ver Hver) as (x & y & l & ->).
Qed.

(** X18.  A history in which no commit before the root is a boundary, be
    it untagged or tagged on the starting commit only (a tag on the commit
    that is being built closes nothing), gives at most one stanza.  Let the
    release resolve, to a name free of [/], and the version resolve.  When
    the version is free of [/] and the package name can be read, there is
    exactly one stanza: it holds every commit of the walk, the root
    included, and is published under the release and version of the
    package.  When the version holds a [/] (as for a starting commit named
    [origin/main]), the walk stops at the root with [ValueError]; when the
    name cannot be read, with the error of that read; in both cases nothing
    is yielded. *)
Theorem untagged_history_single_stanza `{DateTime} (st st1 st2 st3 : State)
    (body : list Git.Commit) (root : Git.Commit) (rel ver : string)
    (nm : result string) :
  let tags := build_tags (tag_prefix (self st)) (Git.tags (git_repository (self st))) in
  Git.iter_commits (git_repository (self st)) (commit_hash (self st))
  = Ok (body ++ [root]) ->
  Forall (fun c => Git.parents c <> []
                   /\ (tags !! Git.hexsha c = None
                       \/ Git.hexsha c = commit_hash (self st))) body ->
  Git.parents root = [] ->
  release st = (st1, Ok rel) ->
  Str.contains "/" rel = false ->
  version st1 = (st2, Ok ver) ->
  name st2 = (st3, nm) ->
  exists e,
    entry_of (body ++ [root]) = Some e
    /\ collect (iter_changelog st)
       = if Str.contains "/" ver then (st2, [], Some ValueError)
         else match nm with
              | Ok n => (st3, [stanza_text n ver rel e], None)
              | Raise ex => (st3, [], Some ex)
              end.
Proof.
  cbv zeta. intros Hlog Hbody Hroot Hrel Hrel' Hver Hname.
  destruct (entry_of (body ++ [root])) as [e|] eqn:He; [|by destruct body].
  exists e. split; [done|]. unfold iter_changelog.
  rewrite (iter_changelog_with_walk _ _ _ _ _ _ _ Hrel Hver Hlog).
  change (@None changelog_entry) with (entry_of []).
  rewrite walk_skip.
  2:{ eapply Forall_impl; [exact Hbody|]. intros c [? ?].
      by apply not_boundary_plain. }
  cbn [app]. destruct (Str.contains "/" ver) eqn:Hver'.
  { cbn [walk]. rewrite boundary_root by done.
    by rewrite unpack2_slash_version. }
  destruct nm as [n|ex].
  - erewrite walk_boundary; cycle 1.
    { by apply boundary_root. }
    { by apply split_two. }
    { rewrite bool_decide_eq_true_2 by done. rewrite entry_of_snoc. exact He. }
    { exact Hname. }
    rewrite collect_parts, yielded_GYield, outcome_GYield, final_state_GYield.
    rewrite bool_decide_eq_true_2 by done. reflexivity.
  - pose proof (name_Raise _ _ _ Hname) as ->.
    erewrite walk_boundary_no_name; [reflexivity| | | |exact Hname].
    { by apply boundary_root. }
    { by apply split_two. }
    { rewrite bool_decide_eq_true_2 by done. rewrite entry_of_snoc. exact He. }
Qed.

(** The sample history without tags: one stanza over its three commits. *)
Lemma untagged_history_single_stanza_witness :
  exists e,
    entry_of ([Sample.c3; Sample.c2] ++ [Sample.c1]) = Some e
    /\ collect (iter_changelog
                  (Sample.start Sample.untagged Sample.hash3 Sample.packaged))
       = (final_state (iter_changelog
                         (Sample.start Sample.untagged Sample.hash3 Sample.packaged)),
          [stanza_text "hello" "0.0.0+git20200103120000.c3c3c3c.release" "master" e],
          None).
Proof.
  pose (st := Sample.start Sample.untagged Sample.hash3 Sample.packaged).
  apply (untagged_history_single_stanza (H := utc_calendar) st
           (fst (release st)) (fst (version (fst (release st))))
           (final_state (iter_changelog st))
           [Sample.c3; Sample.c2] Sample.c1
           "master" "0.0.0+git20200103120000.c3c3c3c.release" (Ok "hello")).
  - reflexivity.
  - repeat constructor; discriminate.
  - reflexivity.
  - reflexivity.
  - reflexivity.
  - vm_compute. reflexivity.
  - vm_compute. reflexivity.
Defined.

(** X19.  When the first commit of the walk has parents and carries a tag
    with the prefix, and the starting commit was not given by that commit's
    full hash (a branch name or a short hash, say), the walk meets a
    boundary at once and no stanza is yielded.  Let the release resolve, to
    a name free of [/], and the version resolve.  When the version is free
    of [/], there is no entry to close and the walk stops with
    [AttributeError]; when it holds a [/] (as for a starting commit named
    [origin/main]), the unpacking comes first and the walk stops with
    [ValueError]. *)
Theorem tagged_start_by_name_fails `{DateTime} (st st1 st2 : State)
    (c : Git.Commit) (rest : list Git.Commit) (rel ver : string) :
  let tags := build_tags (tag_prefix (self st)) (Git.tags (git_repository (self st))) in
  Git.iter_commits (git_repository (self st)) (commit_hash (self st))
  = Ok (c :: rest) ->
  Git.parents c <> [] ->
  is_Some (tags !! Git.hexsha c) ->
  Git.hexsha c <> commit_hash (self st) ->
  release st = (st1, Ok rel) ->
  Str.contains "/" rel = false ->
  version st1 = (st2, Ok ver) ->
  collect (iter_changelog st)
  = (st2, [], Some (if Str.contains "/" ver then ValueError else AttributeError)).
Proof.
  cbv zeta. intros Hlog Hp Htag Hh Hrel Hrel' Hver.
  unfold iter_changelog.
  rewrite (iter_changelog_with_walk _ _ _ _ _ _ _ Hrel Hver Hlog).
  cbn [walk]. unfold is_boundary.
  rewrite (bool_decide_eq_true_2 _ Htag).
  destruct (String.eqb_spec (Git.hexsha c) (commit_hash (self st))) as [|_]; [done|].
  cbn [negb andb orb].
  destruct (Str.contains "/" ver) eqn:Hver'.
  { by rewrite unpack2_slash_version. }
  change (rel +:+ "/" +:+ ver) with (rel +:+ String "/" ver).
  rewrite split_two by done. cbn [unpack2].
  rewrite bool_decide_eq_false_2 by done. reflexivity.
Qed.

(** The tagged newest commit of the sample history, started as [HEAD]. *)
Lemma tagged_start_by_name_fails_witness :
  collect (iter_changelog (Sample.start sample_head_tagged "HEAD" Sample.packaged))
  = (fst (version (fst (release (Sample.start sample_head_tagged "HEAD"
                                   Sample.packaged)))),
     [], Some AttributeError).
Proof.
  pose (st := Sample.start sample_head_tagged "HEAD" Sample.packaged).
  apply (tagged_start_by_name_fails (H := utc_calendar) st
           (fst (release st)) (fst (version (fst (release st))))
           Sample.c3 [Sample.c2; Sample.c1]
           "master" "0.0.0+git20200103120000.HEAD.release").
  - reflexivity.
  - discriminate.
  - vm_compute. by eexists.
  - discriminate.
  - reflexivity.
  - reflexivity.
  - vm_compute. reflexivity.
Defined.

(** ** What a finalized entry holds *)

Lemma first_line_single (message : string) :
  Str.contains "010" (first_line message) = false.
Proof.
  unfold first_line. pose proof (split_segments_clean "010" message) as Hall.
  destruct (Str.split "010" message) as [|l ls]; [reflexivity|]. by inversion Hall.
Qed.

Lemma messages_setdefault_insert0 (d : list (string * list string)) (key item : string)
    (P : string -> Prop) :
  length (concat (map snd (setdefault_insert0 d key item)))
  = S (length (concat (map snd d)))
  /\ (P item -> Forall P (concat (map snd d)) ->
      Forall P (concat (map snd (setdefault_insert0 d key item)))).
Proof.
  induction d as [|[k l] d [IH1 IH2]]; cbn [setdefault_insert0].
  { split; [reflexivity|]. intros Hi _. by repeat constructor. }
  destruct (String.eqb k key); cbn [map snd concat].
  - split; [reflexivity|]. intros Hi Hall. by constructor.
  - rewrite !length_app, IH1. split; [lia|].
    intros Hi [Hl Hd]%Forall_app. apply Forall_app. split; [done|]. by apply IH2.
Qed.

Section EntryFacts.

Context `{DateTime}.

Lemma foldl_add_commit_messages (seg : list Git.Commit) (e : changelog_entry) :
  length (all_messages (foldl add_commit e seg))
  = (length seg + length (all_messages e))%nat
  /\ (Forall (fun m => Str.contains "010" m = false) (all_messages e) ->
      Forall (fun m => Str.contains "010" m = false)
        (all_messages (foldl add_commit e seg))).
Proof.
  revert e. induction seg as [|c seg IH]; intros e; [by split|].
  cbn [foldl]. destruct (IH (add_commit e c)) as [IH1 IH2].
  unfold all_messages in *. cbn [add_commit contents] in *.
  destruct (messages_setdefault_insert0 (contents e) (Git.name (Git.author c))
              (first_line (Git.message c))
              (fun m => Str.contains "010" m = false)) as [Hlen Hall].
  rewrite IH1, Hlen. split; [cbn [length]; lia|].
  intros He. apply IH2, Hall; [apply first_line_single|done].
Qed.

End EntryFacts.

(** X20.  The signature of a stanza is that of the newest commit in it:
    every entry that [iter_changelog] finalizes is the entry of a run of
    consecutive commits of the walk, and its author, mail and date are the
    author's name and address and the committed date of the first commit of
    that run. *)
Theorem entry_signed_by_newest_commit `{DateTime} (st : State)
    (commits : list Git.Commit) (n v r : string) (e : changelog_entry) :
  Git.iter_commits (git_repository (self st)) (commit_hash (self st)) = Ok commits ->
  (n, v, r, e) ∈ yielded (iter_entries st) ->
  exists c seg,
    infix (c :: seg) commits
    /\ entry_of (c :: seg) = Some e
    /\ author e = Git.name (Git.author c)
    /\ mail e = Git.email (Git.author c)
    /\ date e = format_datetime
                  (from_timestamp (Git.committed_date c) (Git.committer_tz_offset c)).
Proof.
  intros Hc Hin.
  destruct (yielded_iter_entries_segments st commits n v r e Hc Hin)
    as ([|c seg] & Hseg & He); [discriminate|].
  exists c, seg. split; [done|]. split; [done|].
  injection He as <-.
  destruct (foldl_add_commit_fields (c :: seg) (new_entry c)) as (Ha & Hm & Hd).
  split; [exact Ha|]. split; [exact Hm|exact Hd].
Qed.

(** X21.  Every entry that [iter_changelog] finalizes accounts for each
    commit of its run exactly once: it has one message for each of them,
    each message a single line, and no author has two blocks. *)
Theorem entry_accounts_for_every_commit `{DateTime} (st : State)
    (commits : list Git.Commit) (n v r : string) (e : changelog_entry) :
  Git.iter_commits (git_repository (self st)) (commit_hash (self st)) = Ok commits ->
  (n, v, r, e) ∈ yielded (iter_entries st) ->
  exists seg,
    infix seg commits
    /\ entry_of seg = Some e
    /\ length (all_messages e) = length seg
    /\ Forall (fun m => Str.contains "010" m = false) (all_messages e)
    /\ NoDup (map fst (contents e)).
Proof.
  intros Hc Hin.
  destruct (yielded_iter_entries_segments st commits n v r e Hc Hin)
    as ([|c seg] & Hseg & He); [discriminate|].
  exists (c :: seg). split; [done|]. split; [done|].
  pose proof (entry_of_keys c seg e He) as Hkeys.
  injection He as <-.
  destruct (foldl_add_commit_messages (c :: seg) (new_entry c)) as [Hlen Hall].
  split.
  { etransitivity; [exact Hlen|]. cbn [new_entry all_messages contents map concat length].
    apply Nat.add_0_r. }
  split; [apply Hall; constructor|].
  rewrite Hkeys. apply first_seen_NoDup.
Qed.

(** A finalized entry of the sample history without tags. *)
Lemma entry_signed_by_newest_commit_witness :
  exists c seg,
    infix (c :: seg) [Sample.c3; Sample.c2; Sample.c1]
    /\ entry_of (c :: seg)
       = Some {| author := "Alice"; mail := "alice@example.org";
                 contents := [("Alice", ["Initial import"; "Fix build"]);
                              ("Bob", ["Add packaging"])];
                 date := "Fri, 03 Jan 2020 12:00:00 +0000" |}
    /\ "Alice" = Git.name (Git.author c)
    /\ "alice@example.org" = Git.email (Git.author c)
    /\ "Fri, 03 Jan 2020 12:00:00 +0000"
       = format_datetime
           (from_timestamp (Git.committed_date c) (Git.committer_tz_offset c)).
Proof.
  apply (entry_signed_by_newest_commit (H := utc_calendar)
           (Sample.start Sample.untagged Sample.hash3 Sample.packaged)
           [Sample.c3; Sample.c2; Sample.c1]
           "hello" "0.0.0+git20200103120000.c3c3c3c.release" "master"
           {| author := "Alice"; mail := "alice@example.org";
              contents := [("Alice", ["Initial import"; "Fix build"]);
                           ("Bob", ["Add packaging"])];
              date := "Fri, 03 Jan 2020 12:00:00 +0000" |}).
  - reflexivity.
  - assert (Hy : yielded (iter_entries
                            (Sample.start Sample.untagged Sample.hash3 Sample.packaged))
                 = [("hello", "0.0.0+git20200103120000.c3c3c3c.release", "master",
                     {| author := "Alice"; mail := "alice@example.org";
                        contents := [("Alice", ["Initial import"; "Fix build"]);
                                     ("Bob", ["Add packaging"])];
                        date := "Fri, 03 Jan 2020 12:00:00 +0000" |})])
      by (vm_compute; reflexivity).
    rewrite Hy. apply list_elem_of_here.
Defined.

(** The same entry: three commits, three single-line messages, two
    authors. *)
Lemma entry_accounts_for_every_commit_witness :
  exists seg,
    infix seg [Sample.c3; Sample.c2; Sample.c1]
    /\ entry_of seg
       = Some {| author := "Alice"; mail := "alice@example.org";
                 contents := [("Alice", ["Initial import"; "Fix build"]);
                              ("Bob", ["Add packaging"])];
                 date := "Fri, 03 Jan 2020 12:00:00 +0000" |}
    /\ length ["Initial import"; "Fix build"; "Add packaging"] = length seg
    /\ Forall (fun m => Str.contains "010" m = false)
         ["Initial import"; "Fix build"; "Add packaging"]
    /\ NoDup ["Alice"; "Bob"].
Proof.
  apply (entry_accounts_for_every_commit (H := utc_calendar)
           (Sample.start Sample.untagged Sample.hash3 Sample.packaged)
           [Sample.c3; Sample.c2; Sample.c1]
           "hello" "0.0.0+git20200103120000.c3c3c3c.release" "master"
           {| author := "Alice"; mail := "alice@example.org";
              contents := [("Alice", ["Initial import"; "Fix build"]);
                           ("Bob", ["Add packaging"])];
              date := "Fri, 03 Jan 2020 12:00:00 +0000" |}).
  - reflexivity.
  - assert (Hy : yielded (iter_entries
                            (Sample.start Sample.untagged Sample.hash3 Sample.packaged))
                 = [("hello", "0.0.0+git20200103120000.c3c3c3c.release", "master",
                     {| author := "Alice"; mail := "alice@example.org";
                        contents := [("Alice", ["Initial import"; "Fix build"]);
                                     ("Bob", ["Add packaging"])];
                        date := "Fri, 03 Jan 2020 12:00:00 +0000" |})])
      by (vm_compute; reflexivity).
    rewrite Hy. apply list_elem_of_here.
Defined.

(** ** What the script writes *)

Lemma name_world (st st' : State) (r : result string) :
  name st = (st', r) -> world st' = world st.
Proof.
  unfold name, bind, gets, lift, modify_self, ret, raise.
  destruct (_name (self st)); [by intros [= <- _]|].
  destruct (os_path_exists _ _); [|by intros [= <- _]].
  destruct (open_read _ _); [|by intros [= <- _]].
  destruct (List.find _ _); [|by intros [= <- _]].
  destruct (Str.index_last _); by intros [= <- _].
Qed.

Section Writing.

Context `{DateTime}.

(** Once the name is stored, the walk no longer looks at the files. *)
Lemma walk_cached_name {Y} (fmt : string -> string -> string -> changelog_entry -> Y)
    (tags : gmap string string) (h : string) (commits : list Git.Commit) (n : string) :
  forall (nv : string) (entry : option changelog_entry) (st st' : State),
    _name (self st) = Some n -> _name (self st') = Some n ->
    yielded (walk fmt tags h commits nv entry st')
    = yielded (walk fmt tags h commits nv entry st)
    /\ outcome (walk fmt tags h commits nv entry st')
       = outcome (walk fmt tags h commits nv entry st).
Proof.
  induction commits as [|c rest IH]; intros nv entry st st' Hn Hn'; [by split|].
  cbn [walk]. destruct (is_boundary tags h c); [|by apply IH].
  destruct (unpack2 _) as [[release version]|ex]; [|by split].
  destruct (if bool_decide (Git.parents c = []) then _ else _) as [e|]; [|by split].
  rewrite (name_cached st n Hn), (name_cached st' n Hn').
  rewrite !yielded_GYield, !outcome_GYield.
  destruct (bool_decide (Git.parents c = [])).
  - destruct (IH nv (entry_of [c]) st st' Hn Hn') as [Hy Ho].
    split; [f_equal; exact Hy|exact Ho].
  - destruct (tags !! Git.hexsha c) as [tv|]; [|by split].
    destruct (IH tv (entry_of [c]) st st' Hn Hn') as [Hy Ho].
    split; [f_equal; exact Hy|exact Ho].
Qed.

Lemma for_each_walk_writes (tags : gmap string string) (h : string)
    (commits : list Git.Commit) :
  forall (nv : string) (entry : option changelog_entry) (st : State),
    let g := walk stanza_text tags h commits nv entry st in
    world (fst (for_each g write_entry))
    = foldl (fun w y => file_write w changelog_file y) (world st) (yielded g)
    /\ snd (for_each g write_entry) = result_of_outcome (outcome g).
Proof.
  induction commits as [|c rest IH]; intros nv entry st; cbv zeta; [by split|].
  cbn [walk]. destruct (is_boundary tags h c); [|apply IH].
  destruct (unpack2 _) as [[release version]|ex]; [|by split].
  destruct (if bool_decide (Git.parents c = []) then _ else _) as [e|]; [|by split].
  destruct (name st) as [st1 [n|ex]] eqn:Hname.
  2:{ split; [|reflexivity]. cbn. by eapply name_world. }
  pose proof (name_world _ _ _ Hname) as Hw. apply name_Ok in Hname.
  rewrite yielded_GYield, outcome_GYield. cbn [for_each write_entry].
  set (st1w := {| self := self st1;
                  world := file_write (world st1) changelog_file
                             (stanza_text n version release e) |}).
  cbn [foldl]. rewrite <- Hw.
  destruct (bool_decide (Git.parents c = [])).
  - destruct (IH nv (entry_of [c]) st1w) as [IHw IHr].
    destruct (walk_cached_name stanza_text tags h rest n nv (entry_of [c]) st1 st1w)
      as [Hy Ho]; [done..|].
    split.
    + etransitivity; [exact IHw|]. f_equal. exact Hy.
    + etransitivity; [exact IHr|]. f_equal. exact Ho.
  - destruct (tags !! Git.hexsha c) as [tv|]; [|by split].
    destruct (IH tv (entry_of [c]) st1w) as [IHw IHr].
    destruct (walk_cached_name stanza_text tags h rest n tv (entry_of [c]) st1 st1w)
      as [Hy Ho]; [done..|].
    split.
    + etransitivity; [exact IHw|]. f_equal. exact Hy.
    + etransitivity; [exact IHr|]. f_equal. exact Ho.
Qed.

Lemma for_each_iter_changelog_writes (st : State) :
  world (fst (for_each (iter_changelog st) write_entry))
  = foldl (fun w y => file_write w changelog_file y) (world st)
      (yielded (iter_changelog st))
  /\ snd (for_each (iter_changelog st) write_entry)
     = result_of_outcome (outcome (iter_changelog st)).
Proof.
  unfold iter_changelog, iter_changelog_with.
  destruct (release st) as [st1 [r|e]] eqn:Hr;
    apply release_state in Hr as (Hw1 & _).
  2:{ by split. }
  destruct (version st1) as [st2 [v|e]] eqn:Hv;
    apply version_state in Hv as (Hw2 & _).
  2:{ split; [cbn; congruence|reflexivity]. }
  destruct (Git.iter_commits _ _) as [commits|e].
  2:{ split; [cbn; congruence|reflexivity]. }
  destruct (for_each_walk_writes
              (build_tags (tag_prefix (self st)) (Git.tags (git_repository (self st))))
              (commit_hash (self st2)) commits (r +:+ "/" +:+ v) None st2) as [Hw Hres].
  split; [|exact Hres]. etransitivity; [exact Hw|]. by rewrite Hw2, Hw1.
Qed.

End Writing.

Lemma foldl_file_write_content (ys : list string) :
  forall (w : World) (c0 : string),
    files w !! resolve w changelog_file = Some (File c0) ->
    foldl (fun w y => file_write w changelog_file y) w ys
    = {| files := <[resolve w changelog_file := File (c0 +:+ Str.join EmptyString ys)]>
                    (files w);
         stdout := stdout w; cwd := cwd w |}.
Proof.
  induction ys as [|y ys IH]; intros w c0 Hf.
  - cbn [foldl Str.join String.concat]. rewrite append_empty_r.
    rewrite insert_id by done. by destruct w.
  - cbn [foldl]. unfold file_write at 2. rewrite Hf.
    erewrite IH; [|unfold resolve; cbn [files cwd]; apply lookup_insert_eq].
    unfold resolve. cbn [files stdout cwd].
    rewrite insert_insert_eq, join_empty_cons, append_assoc. reflexivity.
Qed.


(** X22.  Once the repository has loaded, the version has resolved and
    [debian/changelog] could be opened, the script leaves in that file
    exactly the stanzas that [iter_changelog] yields, one after the other in
    the order of the walk, and nothing else; it ends well when the generator
    ends well, and with the generator's exception otherwise, in which case
    the file holds the stanzas yielded until then. *)
Theorem main_writes_the_stanzas `{DateTime}
    (git_Repo : string -> result Git.Repo) (args : Args.t) (w : World)
    (repo : Git.Repo) (h : string) (br : option string) (st1 : State) (v : string) :
  let pkg := SlimPackage_init repo h (Args.tag args) (Args.tag_prefix args)
               br (Args.branch_prefix args) (Args.comment args) in
  let opened :=
    {| files := <[resolve w changelog_file := File EmptyString]> (files w);
       stdout := stdout w ++ ["I: Resulting version is " +:+ v];
       cwd := cwd w |} in
  let g := iter_changelog {| self := self st1; world := opened |} in
  git_Repo (Args.git_repository args) = Ok repo ->
  commit_argument args repo = Ok h ->
  branch_argument args repo = Ok br ->
  version {| self := pkg; world := w |} = (st1, Ok v) ->
  files w !! os_path.dirname (resolve w changelog_file) = Some Dir ->
  files w !! resolve w changelog_file <> Some Dir ->
  main git_Repo args w
  = ({| files := <[resolve w changelog_file :=
                     File (Str.join EmptyString (yielded g))]> (files w);
        stdout := stdout w ++ ["I: Resulting version is " +:+ v];
        cwd := cwd w |},
     result_of_outcome (outcome g)).
Proof.
  cbv zeta. intros Hrepo Hh Hbr Hv Hdir Hfile.
  unfold main. rewrite Hrepo, Hh, Hbr. unfold build. rewrite Hv.
  apply version_state in Hv as (Hw1 & _). cbn [self world] in Hw1.
  cbn [self world]. rewrite Hw1. unfold open_write.
  change (resolve (print w _) changelog_file) with (resolve w changelog_file).
  cbn [print files stdout cwd]. rewrite Hdir.
  set (opened := {| files := <[resolve w changelog_file := File EmptyString]> (files w);
                    stdout := stdout w ++ ["I: Resulting version is " +:+ v];
                    cwd := cwd w |}).
  set (st3 := {| self := self st1; world := opened |}).
  assert (Hgoal :
    (let '(st, r) := for_each (iter_changelog st3) write_entry in (world st, r))
    = ({| files := <[resolve w changelog_file :=
                       File (Str.join EmptyString (yielded (iter_changelog st3)))]>
                     (files w);
          stdout := stdout w ++ ["I: Resulting version is " +:+ v];
          cwd := cwd w |},
       result_of_outcome (outcome (iter_changelog st3)))).
  { destruct (for_each_iter_changelog_writes st3) as [Hw Hr].
    destruct (for_each (iter_changelog st3) write_entry) as [st' r].
    cbn [fst snd] in Hw, Hr. rewrite Hw, Hr. f_equal.
    rewrite (foldl_file_write_content _ (world st3) EmptyString).
    - cbn [st3 world opened files stdout cwd]. unfold resolve. cbn [cwd].
      by rewrite insert_insert_eq.
    - cbn [st3 world opened files]. unfold resolve. cbn [cwd].
      apply lookup_insert_eq. }
  destruct (files w !! resolve w changelog_file) as [[content|]|] eqn:Hold;
    [exact Hgoal|done|exact Hgoal].
Qed.


(** A run in the sample checkout: it ends well and the changelog holds the
    two stanzas. *)
Lemma main_writes_the_stanzas_witness :
  let run := main (Sample.loader Sample.tagged) (Args.defaults "/repo") Sample.packaged in
  snd run = Ok tt
  /\ files (fst run) !! "/repo/debian/changelog"
     = Some (File (Str.join EmptyString
                     (yielded (iter_changelog
                                 (Sample.start Sample.tagged Sample.hash3
                                    Sample.packaged))))).
Proof.
  cbv zeta.
  rewrite (main_writes_the_stanzas (H := utc_calendar)
             (Sample.loader Sample.tagged) (Args.defaults "/repo") Sample.packaged
             Sample.tagged Sample.hash3 (Some "master")
             (fst (version (Sample.start Sample.tagged Sample.hash3 Sample.packaged)))
             "0.0.0+git20200103120000.c3c3c3c.release").
  - split; vm_compute; reflexivity.
  - reflexivity.
  - reflexivity.
  - reflexivity.
  - vm_compute. reflexivity.
  - vm_compute. reflexivity.
  - vm_compute. discriminate.
Defined.

